(** * Name disambiguation: the [Person] class and the resolver of the
    tobacco-networks backend.

    Shallow embedding of [name_disambiguation/person.py] and of
    [match_djangoperson_from_name] in [backend/apps/main/models.py].

    Python [str] values are modelled as [string] (ASCII bytes), Python
    [int] as [Z], a [collections.Counter] as an association list kept in
    insertion order, and exceptions as an explicit [result] type.  What
    the two files import from elsewhere is a parameter of the model:
    the organisation table [RAW_ORG_TO_CLEAN_ORG_DICT], the name
    splitter [HumanName], the regular-expression search over the table's
    spellings, and Python's [hash]. *)

From Stdlib Require Import String Ascii List ZArith Lia Bool Arith.
From Stdlib Require Import Permutation Sorted DecimalString.
Import ListNotations.
Local Open Scope string_scope.

(* ================================================================== *)
(** * Python string primitives *)
(* ================================================================== *)

Module PyStr.

(** [c in chars] for a one-character [c]. *)
Fixpoint mem (c : ascii) (chars : string) : bool :=
  match chars with
  | EmptyString => false
  | String d rest => Ascii.eqb c d || mem c rest
  end.

Definition is_upper (c : ascii) : bool :=
  let n := nat_of_ascii c in (65 <=? n)%nat && (n <=? 90)%nat.

Definition is_lower (c : ascii) : bool :=
  let n := nat_of_ascii c in (97 <=? n)%nat && (n <=? 122)%nat.

Definition is_alpha (c : ascii) : bool := is_upper c || is_lower c.

Definition upper_char (c : ascii) : ascii :=
  if is_lower c then ascii_of_nat (nat_of_ascii c - 32) else c.

Definition lower_char (c : ascii) : ascii :=
  if is_upper c then ascii_of_nat (nat_of_ascii c + 32) else c.

(** [s.upper()] and [s.lower()]. *)
Fixpoint upper (s : string) : string :=
  match s with
  | EmptyString => EmptyString
  | String c rest => String (upper_char c) (upper rest)
  end.

Fixpoint lower (s : string) : string :=
  match s with
  | EmptyString => EmptyString
  | String c rest => String (lower_char c) (lower rest)
  end.

(** [s.capitalize()]: first character upper-cased, the rest lower-cased. *)
Definition capitalize (s : string) : string :=
  match s with
  | EmptyString => EmptyString
  | String c rest => String (upper_char c) (lower rest)
  end.

(** [s.startswith(p)]. *)
Fixpoint startswith (p s : string) : bool :=
  match p, s with
  | EmptyString, _ => true
  | String _ _, EmptyString => false
  | String a p', String b s' => Ascii.eqb a b && startswith p' s'
  end.

(** [s[:n]] and [s[n:]] for a non-negative [n]. *)
Fixpoint take (n : nat) (s : string) : string :=
  match n, s with
  | O, _ => EmptyString
  | S _, EmptyString => EmptyString
  | S n', String c rest => String c (take n' rest)
  end.

Fixpoint drop (n : nat) (s : string) : string :=
  match n, s with
  | O, _ => s
  | S _, EmptyString => EmptyString
  | S n', String _ rest => drop n' rest
  end.

(** Index of the first occurrence of [sub] in [s], if any. *)
Fixpoint find_index (sub s : string) : option nat :=
  if startswith sub s then Some O
  else match s with
       | EmptyString => None
       | String _ rest => option_map S (find_index sub rest)
       end.

(** [s.find(sub)]: the lowest index where [sub] occurs, or [-1]. *)
Definition find (sub s : string) : Z :=
  match find_index sub s with
  | Some i => Z.of_nat i
  | None => (-1)%Z
  end.

(** [s[i]] for a Python index [i] (negative counts from the end);
    [None] stands for [IndexError]. *)
Definition index (s : string) (i : Z) : option ascii :=
  let n := Z.of_nat (String.length s) in
  let j := if (i <? 0)%Z then (n + i)%Z else i in
  if ((0 <=? j) && (j <? n))%Z then String.get (Z.to_nat j) s else None.

(** Slice bound clamping, as Python does for [s[a:b]]. *)
Definition clamp (s : string) (i : Z) : nat :=
  let n := Z.of_nat (String.length s) in
  let j := if (i <? 0)%Z then (n + i)%Z else i in
  Z.to_nat (Z.min n (Z.max 0 j)).

(** [s[:i]] and [s[i:]] for a Python index [i]. *)
Definition slice_to (s : string) (i : Z) : string := take (clamp s i) s.
Definition slice_from (s : string) (i : Z) : string := drop (clamp s i) s.

(** Worker of [replace]: [skip] characters of a match still to be
    consumed. *)
Fixpoint replace_go (old new : string) (skip : nat) (s : string) : string :=
  match s with
  | EmptyString => EmptyString
  | String c rest =>
      match skip with
      | S k => replace_go old new k rest
      | O =>
          if startswith old s
          then new ++ replace_go old new (String.length old - 1) rest
          else String c (replace_go old new O rest)
      end
  end.

Fixpoint interleave (new s : string) : string :=
  match s with
  | EmptyString => new
  | String c rest => new ++ String c (interleave new rest)
  end.

(** [s.replace(old, new)]: every non-overlapping occurrence, left to
    right. *)
Definition replace (old new s : string) : string :=
  match old with
  | EmptyString => interleave new s
  | String _ _ => replace_go old new O s
  end.

(** Worker of [split]: [cur] is the piece under construction. *)
Fixpoint split_go (sep : string) (skip : nat) (cur : string) (s : string)
  : list string :=
  match s with
  | EmptyString => [cur]
  | String c rest =>
      match skip with
      | S k => split_go sep k cur rest
      | O =>
          if startswith sep s
          then cur :: split_go sep (String.length sep - 1) EmptyString rest
          else split_go sep O (cur ++ String c EmptyString) rest
      end
  end.

(** [s.split(sep)] for a non-empty separator. *)
Definition split (sep s : string) : list string := split_go sep O EmptyString s.

(** Worker of [count]. *)
Fixpoint count_go (sub : string) (skip : nat) (s : string) : nat :=
  match s with
  | EmptyString => O
  | String _ rest =>
      match skip with
      | S k => count_go sub k rest
      | O =>
          if startswith sub s
          then S (count_go sub (String.length sub - 1) rest)
          else count_go sub O rest
      end
  end.

(** [s.count(sub)] for a non-empty [sub]. *)
Definition count (sub s : string) : nat := count_go sub O s.

(** [s.lstrip(chars)], [s.rstrip(chars)], [s.strip(chars)]. *)
Fixpoint lstrip (chars s : string) : string :=
  match s with
  | EmptyString => EmptyString
  | String c rest => if mem c chars then lstrip chars rest else s
  end.

Fixpoint rstrip (chars s : string) : string :=
  match s with
  | EmptyString => EmptyString
  | String c rest =>
      match rstrip chars rest with
      | EmptyString => if mem c chars then EmptyString else String c EmptyString
      | r => String c r
      end
  end.

Definition strip (chars s : string) : string := rstrip chars (lstrip chars s).

(** [sub in s]. *)
Definition contains (sub s : string) : bool :=
  match find_index sub s with Some _ => true | None => false end.

(** [sep.join(parts)]. *)
Fixpoint join (sep : string) (parts : list string) : string :=
  match parts with
  | [] => EmptyString
  | [p] => p
  | p :: rest => p ++ sep ++ join sep rest
  end.

(** [bool(s)]: a string is truthy when it is not empty. *)
Definition truthy (s : string) : bool :=
  match s with EmptyString => false | String _ _ => true end.

(** [a < b] on [str]: lexicographic on the character codes, a proper
    prefix being smaller. *)
Fixpoint ltb (a b : string) : bool :=
  match a, b with
  | _, EmptyString => false
  | EmptyString, String _ _ => true
  | String x a', String y b' =>
      if (nat_of_ascii x <? nat_of_ascii y)%nat then true
      else if (nat_of_ascii y <? nat_of_ascii x)%nat then false
      else ltb a' b'
  end.

End PyStr.

(* ================================================================== *)
(** * The regular expressions of [person.py], each as a matcher *)
(* ================================================================== *)

Module PyRe.

Definition newline : ascii := ascii_of_nat 10.

(** The maximal run of characters satisfying [p] at the start of [s]. *)
Fixpoint span_len (p : ascii -> bool) (s : string) : nat :=
  match s with
  | EmptyString => O
  | String c rest => if p c then S (span_len p rest) else O
  end.

(** [re.search(r'^[A-Z][a-z]+-[A-Z]{1,2}(-Jr|-Sr|-III)', s)]: the text
    of group 1 when the pattern matches.  The pattern is anchored, so
    only position 0 is tried. *)
Definition suffix_group (s : string) : option string :=
  if PyStr.startswith "-Jr" s then Some "-Jr"
  else if PyStr.startswith "-Sr" s then Some "-Sr"
  else if PyStr.startswith "-III" s then Some "-III"
  else None.

Definition initials_then_group (s : string) : option string :=
  let two :=
    match s with
    | String a (String b rest) =>
        if PyStr.is_upper a && PyStr.is_upper b then suffix_group rest else None
    | _ => None
    end in
  match two with
  | Some g => Some g
  | None =>
      match s with
      | String a rest => if PyStr.is_upper a then suffix_group rest else None
      | EmptyString => None
      end
  end.

Definition search_jr_sr_iii (s : string) : option string :=
  match s with
  | String c rest =>
      if PyStr.is_upper c then
        let n := span_len PyStr.is_lower rest in
        match n with
        | O => None
        | S _ =>
            match PyStr.drop n rest with
            | String d rest' =>
                if Ascii.eqb d "-"%char then initials_then_group rest' else None
            | EmptyString => None
            end
        end
      else None
  | EmptyString => None
  end.

(** Index of the last occurrence of [c] in [s]. *)
Fixpoint last_index (c : ascii) (s : string) : option nat :=
  match s with
  | EmptyString => None
  | String d rest =>
      match last_index c rest with
      | Some j => Some (S j)
      | None => if Ascii.eqb d c then Some O else None
      end
  end.

(** One match of [\([^(]+\)] right after an opening parenthesis: [s] is
    the text after the ["("]; the result is the matched text after it,
    closing parenthesis included.  [[^(]+] is greedy and backtracks to
    the last [")"] it ran over, keeping at least one character. *)
Definition paren_body (s : string) : option string :=
  let run := PyStr.take (span_len (fun c => negb (Ascii.eqb c "("%char)) s) s in
  match last_index ")"%char run with
  | Some (S j) => Some (PyStr.take (S (S j)) run)
  | _ => None
  end.

Fixpoint findall_parens_go (skip : nat) (s : string) : list string :=
  match s with
  | EmptyString => []
  | String c rest =>
      match skip with
      | S k => findall_parens_go k rest
      | O =>
          if Ascii.eqb c "("%char then
            match paren_body rest with
            | Some m => String c m :: findall_parens_go (String.length m) rest
            | None => findall_parens_go O rest
            end
          else findall_parens_go O rest
      end
  end.

(** [re.findall(r'\([^(]+\)', s)]. *)
Definition findall_parens (s : string) : list string := findall_parens_go O s.

(** [re.match(r'[a-zA-Z]\.[a-zA-Z]\.', s)]. *)
Definition match_dotted_initials (s : string) : bool :=
  match s with
  | String a (String b (String c (String d _))) =>
      PyStr.is_alpha a && Ascii.eqb b "."%char
      && PyStr.is_alpha c && Ascii.eqb d "."%char
  | _ => false
  end.

(** [re.match('^[a-zA-Z]+$', s)]; [$] also matches before a final
    newline. *)
Definition match_letters (s : string) : bool :=
  let n := span_len PyStr.is_alpha s in
  match n with
  | O => false
  | S _ =>
      match PyStr.drop n s with
      | EmptyString => true
      | String c EmptyString => Ascii.eqb c newline
      | _ => false
      end
  end.

(** [re.search(',.+$', s)] as the span [(start, end)] of the match:
    [.] matches anything but a newline, [$] matches at the end or before
    a final newline.  [off] is the index of the head of [s] in the
    searched string. *)
Fixpoint search_comma_tail_go (off : nat) (s : string) : option (nat * nat) :=
  match s with
  | EmptyString => None
  | String c rest =>
      let here :=
        if Ascii.eqb c ","%char then
          let n := span_len (fun d => negb (Ascii.eqb d newline)) rest in
          match n with
          | O => None
          | S _ =>
              match PyStr.drop n rest with
              | EmptyString => Some (off, off + 1 + n)%nat
              | String _ EmptyString => Some (off, off + 1 + n)%nat
              | _ => None
              end
          end
        else None in
      match here with
      | Some m => Some m
      | None => search_comma_tail_go (S off) rest
      end
  end.

Definition search_comma_tail (s : string) : option (nat * nat) :=
  search_comma_tail_go O s.

(** [re.sub(r'\.', '', s)]. *)
Definition sub_periods (s : string) : string := PyStr.replace "." EmptyString s.

End PyRe.

(* ================================================================== *)
(** * Rendering of Python values: [repr] and [json.dumps] *)
(* ================================================================== *)

Module PyRepr.

Definition dquote : ascii := ascii_of_nat 34.
Definition squote : ascii := ascii_of_nat 39.
Definition backslash : ascii := ascii_of_nat 92.

Definition hex_digit (n : nat) : ascii :=
  if (n <? 10)%nat then ascii_of_nat (48 + n) else ascii_of_nat (87 + n).

Definition hex2 (n : nat) : string :=
  String (hex_digit (n / 16)) (String (hex_digit (n mod 16)) EmptyString).

(** [repr(n)] for an [int]. *)
Definition repr_int (z : Z) : string :=
  DecimalString.NilZero.string_of_int (Z.to_int z).

(** One character of [repr(s)] inside quotes [q] (ASCII text). *)
Definition repr_char (q c : ascii) : string :=
  let n := nat_of_ascii c in
  if Ascii.eqb c backslash then String backslash (String backslash EmptyString)
  else if Ascii.eqb c q then String backslash (String q EmptyString)
  else if (n =? 9)%nat then String backslash "t"
  else if (n =? 10)%nat then String backslash "n"
  else if (n =? 13)%nat then String backslash "r"
  else if ((n <? 32) || (n =? 127))%nat then String backslash (String "x"%char (hex2 n))
  else String c EmptyString.

Fixpoint repr_body (q : ascii) (s : string) : string :=
  match s with
  | EmptyString => EmptyString
  | String c rest => repr_char q c ++ repr_body q rest
  end.

(** [repr(s)] for a [str]: single quotes, unless the text has a single
    quote and no double quote. *)
Definition repr_str (s : string) : string :=
  let q := if PyStr.mem squote s && negb (PyStr.mem dquote s) then dquote else squote in
  String q (repr_body q s ++ String q EmptyString).

(** One character of a JSON string, as [json.dumps] writes it with
    [ensure_ascii] (ASCII text). *)
Definition json_char (c : ascii) : string :=
  let n := nat_of_ascii c in
  if Ascii.eqb c dquote then String backslash (String dquote EmptyString)
  else if Ascii.eqb c backslash then String backslash (String backslash EmptyString)
  else if (n =? 10)%nat then String backslash "n"
  else if (n =? 13)%nat then String backslash "r"
  else if (n =? 9)%nat then String backslash "t"
  else if (n =? 12)%nat then String backslash "f"
  else if (n =? 8)%nat then String backslash "b"
  else if ((n <? 32) || (126 <? n))%nat then String backslash ("u00" ++ hex2 n)
  else String c EmptyString.

Fixpoint json_body (s : string) : string :=
  match s with
  | EmptyString => EmptyString
  | String c rest => json_char c ++ json_body rest
  end.

Definition json_str (s : string) : string :=
  String dquote (json_body s ++ String dquote EmptyString).

End PyRepr.

(* ================================================================== *)
(** * [collections.Counter] *)
(* ================================================================== *)

Module Counter.

(** A [Counter] is a [dict]: its entries are kept in insertion order and
    its keys are distinct. *)
Definition t : Type := list (string * Z).

Definition empty : t := [].

(** [k in c]. *)
Fixpoint mem (k : string) (c : t) : bool :=
  match c with
  | [] => false
  | (k', _) :: rest => String.eqb k k' || mem k rest
  end.

(** [c[k]]: the count of [k], [0] for a missing key. *)
Fixpoint get (k : string) (c : t) : Z :=
  match c with
  | [] => 0%Z
  | (k', v) :: rest => if String.eqb k k' then v else get k rest
  end.

(** [c[k] += w]: an existing key keeps its place, a new key goes last. *)
Fixpoint add (k : string) (w : Z) (c : t) : t :=
  match c with
  | [] => [(k, w)]
  | (k', v) :: rest =>
      if String.eqb k k' then (k', (v + w)%Z) :: rest
      else (k', v) :: add k w rest
  end.

(** [for elem, count in other.items(): c[elem] += count]. *)
Definition add_all (c other : t) : t :=
  fold_left (fun acc kv => add (fst kv) (snd kv) acc) other c.

(** [c._keep_positive()]: entries with a count that is not positive are
    deleted. *)
Definition keep_positive (c : t) : t :=
  filter (fun kv => (0 <? snd kv)%Z) c.

(** [c += other] ([Counter.__iadd__]), in place. *)
Definition iadd (c other : t) : t := keep_positive (add_all c other).

(** [Counter(xs)] for an iterable of keys, and the constructor loops of
    [Person.__init__]. *)
Definition of_keys (f : string -> string) (w : Z) (xs : list string) : t :=
  fold_left (fun acc x => add (f x) w acc) xs empty.

(** [bool(c)] and [len(c)]. *)
Definition truthy (c : t) : bool :=
  match c with [] => false | _ :: _ => true end.

(** Stable insertion into a list sorted by descending count: the new
    entry goes before the first entry whose count is not larger. *)
Fixpoint insert_desc (x : string * Z) (l : list (string * Z)) : list (string * Z) :=
  match l with
  | [] => [x]
  | y :: rest =>
      if (snd y <=? snd x)%Z then x :: y :: rest
      else y :: insert_desc x rest
  end.

(** [c.most_common()]: [sorted(c.items(), key=itemgetter(1),
    reverse=True)], a stable sort, so entries of equal count stay in
    insertion order. *)
Fixpoint most_common (c : t) : list (string * Z) :=
  match c with
  | [] => []
  | x :: rest => insert_desc x (most_common rest)
  end.

(** [a] may stand before [b] in a descending listing. *)
Definition desc (a b : string * Z) : Prop := (snd b <= snd a)%Z.

Definition repr_item (kv : string * Z) : string :=
  PyRepr.repr_str (fst kv) ++ ": " ++ PyRepr.repr_int (snd kv).

(** [repr(c)] (and [str(c)]): the entries in [most_common] order. *)
Definition repr (c : t) : string :=
  match c with
  | [] => "Counter()"
  | _ :: _ => "Counter({" ++ PyStr.join ", " (map repr_item (most_common c)) ++ "})"
  end.

Definition json_item (kv : string * Z) : string :=
  PyRepr.json_str (fst kv) ++ ": " ++ PyRepr.repr_int (snd kv).

(** [json.dumps(c)]: the entries in insertion order. *)
Definition json_dumps (c : t) : string :=
  "{" ++ PyStr.join ", " (map json_item c) ++ "}".

(** Two counters with the same contents: the same entries, whatever the
    order they were inserted in. *)
Definition same_contents (c d : t) : Prop := Permutation c d.

End Counter.

(* ================================================================== *)
(** * Exceptions and non-termination *)
(* ================================================================== *)

Inductive exn : Type :=
| IndexError
| ValueError (msg : string)
| IntegrityError.

(** The outcome of running a piece of the program: a value, a raised
    exception, or a loop that did not finish within its fuel. *)
Inductive result (A : Type) : Type :=
| Ok (a : A)
| Raise (e : exn)
| OutOfFuel.

Arguments Ok {A} a.
Arguments Raise {A} e.
Arguments OutOfFuel {A}.

Definition bind {A B : Type} (r : result A) (k : A -> result B) : result B :=
  match r with
  | Ok a => k a
  | Raise e => Raise e
  | OutOfFuel => OutOfFuel
  end.

Notation "x <- r ;; k" := (bind r (fun x => k))
  (at level 61, r at next level, right associativity).

Definition raises {A : Type} (r : result A) : Prop := exists e, r = Raise e.

(* ================================================================== *)
(** * [class Person] *)
(* ================================================================== *)

Module Person.

(** The object [HumanName(s)] of the [nameparser] library, read through
    its [first], [middle], [last] and [suffix] attributes. *)
Record ParsedName : Type := mkParsedName {
  hn_first : string;
  hn_middle : string;
  hn_last : string;
  hn_suffix : string
}.

(** An instance of [Person].  [docs_authored] and [docs_received] are
    attributes only when the constructor was given a non-empty set. *)
Record t : Type := mk {
  last : string;
  first : string;
  middle : string;
  positions : Counter.t;
  aliases : Counter.t;
  count : Z;
  docs_authored : option (list string);
  docs_received : option (list string)
}.

(** The [positions] and [aliases] arguments of the constructor: a
    [Counter], or another iterable of strings. *)
Inductive counter_arg : Type :=
| ACounter (c : Counter.t)
| AIterable (xs : list string).

(** The [docs_authored] and [docs_received] arguments: a [set], or
    another object with its truth value. *)
Inductive docs_arg : Type :=
| DSet (docs : list string)
| DOther (truth : bool).

Definition skip_sentinel : string := "@skip@".
Definition privlog_tag : string := "[Privlog:]".
Definition no_positions : string := "no positions available".

(** Characters removed by [str.strip()] without argument. *)
Definition whitespace : string :=
  String (ascii_of_nat 32) (String (ascii_of_nat 9) (String (ascii_of_nat 10)
  (String (ascii_of_nat 11) (String (ascii_of_nat 12) (String (ascii_of_nat 13)
  (String (ascii_of_nat 28) (String (ascii_of_nat 29) (String (ascii_of_nat 30)
  (String (ascii_of_nat 31) EmptyString))))))))).

(** [s[i]] as a one-character string, where the source has checked the
    length before. *)
Definition char_at (i : nat) (s : string) : string :=
  match String.get i s with
  | Some c => String c EmptyString
  | None => EmptyString
  end.

(** ** Static methods that need nothing outside the file *)

Definition remove_privlog_info (name_raw : string) : string :=
  let privlog_id := PyStr.find privlog_tag name_raw in
  if (privlog_id =? 0)%Z then PyStr.slice_from name_raw privlog_id
  else if (0 <? privlog_id)%Z then PyStr.slice_to name_raw (PyStr.find privlog_tag name_raw)
  else name_raw.

Definition remove_jr_sr_iii (name_raw : string) : string :=
  match PyRe.search_jr_sr_iii name_raw with
  | Some group1 => PyStr.replace group1 EmptyString name_raw
  | None => name_raw
  end.

Definition check_if_this_person_looks_valid (self : t) : bool :=
  if negb (PyRe.match_letters (last self))
     || negb (PyRe.match_letters (first self))
     || ((0 <? String.length (middle self))%nat && negb (PyRe.match_letters (middle self)))
  then false
  else true.

(** The record [Person(last=l, middle=m, first=f)] builds. *)
Definition of_names (l m f : string) : t :=
  mk (PyStr.upper l) (PyStr.upper f) (PyStr.upper m) Counter.empty Counter.empty 1 None None.

Definition stemmed (self : t) : string :=
  last self ++ " " ++ first self ++ " " ++ middle self.

(** [self < other] ([__lt__]). *)
Definition lt (self other : t) : bool :=
  PyStr.ltb (stemmed self) (stemmed other).

Definition full_name (self : t) : string :=
  let c1 :=
    if PyStr.truthy (first self) then
      if (String.length (first self) =? 1)%nat then [first self ++ "."]
      else [PyStr.capitalize (first self)]
    else [] in
  let c2 :=
    if PyStr.truthy (middle self) then
      if (String.length (middle self) =? 1)%nat then [middle self ++ "."]
      else [PyStr.capitalize (middle self)]
    else [] in
  let c3 :=
    if PyStr.truthy (last self) then [PyStr.capitalize (last self)] else [] in
  PyStr.join " " (c1 ++ c2 ++ c3).

(** The text [__hash__] hashes. *)
Definition hash_text (self : t) : string :=
  last self ++ " " ++ first self ++ " " ++ middle self ++ " "
  ++ Counter.repr (positions self) ++ " " ++ Counter.repr (aliases self).

Definition copy_deep (c : Counter.t) : Counter.t := c.

Section WithHash.

(** Python's [hash] on [str], a keyed function fixed per process. *)
Variable hash : string -> Z.

Definition hash_ (self : t) : Z := hash (hash_text self).

Definition eq (self other : t) : bool := (hash_ self =? hash_ other)%Z.

End WithHash.

Section WithTable.

(** [RAW_ORG_TO_CLEAN_ORG_DICT] of [clean_org_names], in the order its
    entries are iterated. *)
Variable RAW_ORG_TO_CLEAN_ORG_DICT : list (string * string).

(** [RAW_ORG_TO_CLEAN_ORG_DICT[k]], when [k] is a key. *)
Fixpoint dict_get (d : list (string * string)) (k : string) : option string :=
  match d with
  | [] => None
  | (k', v) :: rest => if String.eqb k k' then Some v else dict_get rest k
  end.

Definition clean_org_of (k : string) : option string :=
  dict_get RAW_ORG_TO_CLEAN_ORG_DICT k.

(** First loop of [most_likely_position] over [most_common()], with
    [official_org] at its default [True]; [None] when the loop ends
    without returning. *)
Fixpoint official_scan (l : list (string * Z)) : option string :=
  match l with
  | [] => None
  | (position, position_count) :: rest =>
      if (position_count =? 1)%Z then Some no_positions
      else
        match clean_org_of position with
        | Some clean =>
            if negb (String.eqb clean skip_sentinel) then Some clean
            else official_scan rest
        | None => official_scan rest
        end
  end.

Definition indent44 : string :=
  "                                            ".

(** Second loop of [most_likely_position]. *)
Fixpoint fallback_scan (l : list (string * Z)) : option string :=
  match l with
  | [] => None
  | (position, _) :: rest =>
      let skipped :=
        match clean_org_of position with
        | Some clean => String.eqb clean skip_sentinel
        | None => false
        end in
      if skipped then fallback_scan rest
      else if (String.length position <? 5)%nat then fallback_scan rest
      else Some (indent44 ++ PyStr.upper position)
  end.

Definition most_likely_position (self : t) : string :=
  match official_scan (Counter.most_common (positions self)) with
  | Some r => r
  | None =>
      if (0 <? List.length (positions self))%nat then
        match fallback_scan (Counter.most_common (positions self)) with
        | Some r => r
        | None => no_positions
        end
      else no_positions
  end.

End WithTable.

Section WithParser.

Variable RAW_ORG_TO_CLEAN_ORG_DICT : list (string * string).

(** [HumanName(s)] of the [nameparser] library, with its title list
    emptied. *)
Variable HumanName : string -> ParsedName.

(** [re_last_hit raw_org s]: the span [(start, end)] of the last match
    that [re.finditer(r'\b' + raw_org + r'\b', s)] yields, if there is
    one. *)
Variable re_last_hit : string -> string -> option (nat * nat).

(** [s[0:a] + s[b:]]. *)
Definition cut (s : string) (a b : nat) : string :=
  PyStr.take a s ++ PyStr.drop b s.

(** The part of [parse_raw_name] before the table-driven extraction:
    tag and suffix-token removal, the dash-delimited trailing position
    and the parenthesised positions. *)
Definition parse_front (name_raw : string) : string * list string :=
  let name_raw := remove_privlog_info name_raw in
  let name_raw := remove_jr_sr_iii name_raw in
  let '(name_raw, extracted_positions) :=
    if ((-1 <? PyStr.find " - " name_raw)%Z
        && (List.length (PyStr.split " - " name_raw) =? 2)%nat)%bool
    then
      match PyStr.split " - " name_raw with
      | [n; extracted_position] => (n, [PyStr.strip whitespace extracted_position])
      | _ => (name_raw, [])
      end
    else (name_raw, []) in
  fold_left
    (fun (st : string * list string) position =>
       (PyStr.replace position EmptyString (fst st),
        (snd st ++ [PyStr.strip ",#() " position])%list))
    (PyRe.findall_parens name_raw)
    (name_raw, extracted_positions).

(** Canonicalisation of the extracted positions through the table. *)
Fixpoint clean_orgs (extracted_positions : list string) : list string :=
  match extracted_positions with
  | [] => []
  | raw_org :: rest =>
      match clean_org_of RAW_ORG_TO_CLEAN_ORG_DICT raw_org with
      | Some clean_org =>
          if negb (String.eqb clean_org skip_sentinel)
          then clean_org :: clean_orgs rest
          else clean_orgs rest
      | None => raw_org :: clean_orgs rest
      end
  end.

(** The part of [parse_raw_name] after the table-driven extraction.
    The attributes of the name object are read and assigned as plain
    strings; [None] from [PyStr.index] is the [IndexError] of
    [name_raw[-2]]. *)
Definition parse_back (name_raw : string) (extracted_positions : list string)
    (count : Z) : result (string * string * string * Counter.t) :=
  let name_raw := PyStr.strip " #" name_raw in
  match PyStr.index name_raw (-2) with
  | None => Raise IndexError
  | Some c2 =>
      let name_raw :=
        if Ascii.eqb c2 "-"%char
        then PyStr.slice_to name_raw (-2) ++ " " ++ PyStr.slice_from name_raw (-1)
        else name_raw in
      let name_raw :=
        if (2 <? String.length name_raw)%nat
        then match PyStr.index name_raw (-3) with
             | Some c3 =>
                 if Ascii.eqb c3 "-"%char
                 then PyStr.slice_to name_raw (-3) ++ " " ++ PyStr.slice_from name_raw (-2)
                 else name_raw
             | None => name_raw
             end
        else name_raw in
      let name := HumanName name_raw in
      let n_first := hn_first name in
      let n_middle := hn_middle name in
      let n_last := hn_last name in
      let n_suffix := hn_suffix name in
      let '(n_first, n_last) :=
        if ((String.length n_last <=? 2)%nat && (2 <? String.length n_first)%nat)%bool
        then (n_last, n_first) else (n_first, n_last) in
      let n_first :=
        if ((String.length n_first =? 2)%nat && String.eqb (char_at 1 n_first) ".")%bool
        then char_at 0 n_first else n_first in
      let n_middle :=
        if ((String.length n_middle =? 2)%nat && String.eqb (char_at 1 n_middle) ".")%bool
        then char_at 0 n_middle else n_middle in
      let '(n_first, n_middle) :=
        if ((String.length n_middle =? 0)%nat && (String.length n_first =? 2)%nat)%bool
        then (PyStr.upper (char_at 0 n_first), PyStr.upper (char_at 1 n_first))
        else (n_first, n_middle) in
      let '(n_first, n_middle) :=
        if PyRe.match_dotted_initials n_first
        then (char_at 0 n_first, char_at 2 n_first)
        else (n_first, n_middle) in
      let n_last := PyStr.capitalize n_last in
      let n_first := PyStr.capitalize n_first in
      let n_middle := PyStr.capitalize n_middle in
      let n_middle :=
        if (1 <? PyStr.count "," n_middle)%nat then EmptyString else n_middle in
      let n_suffix :=
        if ((20 <? String.length n_suffix)%nat && (2 <? PyStr.count "." n_suffix)%nat)%bool
        then EmptyString else n_suffix in
      let extracted_positions :=
        if PyStr.truthy n_suffix then (extracted_positions ++ [n_suffix])%list
        else extracted_positions in
      let extracted_positions := clean_orgs extracted_positions in
      let result_positions :=
        Counter.of_keys (fun position => PyStr.upper (PyRe.sub_periods position))
          count extracted_positions in
      Ok (n_first, n_middle, n_last, result_positions)
  end.

(** [parse_raw_name(name_raw, count, extract_orgs=False)]. *)
Definition parse_raw_name_plain (name_raw : string) (count : Z)
  : result (string * string * string * Counter.t) :=
  let '(name_raw, extracted_positions) := parse_front name_raw in
  parse_back name_raw extracted_positions count.

(** The [while True] loop of [extract_raw_org_names_from_name] for one
    table entry. *)
Fixpoint org_loop (fuel : nat) (raw_org clean_org : string)
    (name_raw : string) (extracted_positions : list string)
  : result (string * list string) :=
  match fuel with
  | O => OutOfFuel
  | S fuel' =>
      match re_last_hit raw_org name_raw with
      | None => Ok (name_raw, extracted_positions)
      | Some (hit_start, hit_end) =>
          if (3 <=? String.length raw_org)%nat then
            let name_raw := cut name_raw hit_start hit_end in
            let extracted_positions :=
              if negb (String.eqb clean_org skip_sentinel)
              then (extracted_positions ++ [clean_org])%list
              else extracted_positions in
            org_loop fuel' raw_org clean_org name_raw extracted_positions
          else if (String.length raw_org =? 2)%nat then
            let name_raw_test := cut name_raw hit_start hit_end in
            let name := HumanName name_raw_test in
            if (negb (PyStr.truthy (hn_first name))
                && negb (PyStr.truthy (hn_middle name)))%bool
            then Ok (name_raw, extracted_positions)
            else if negb (PyStr.truthy (hn_last name))
            then Ok (name_raw, extracted_positions)
            else org_loop fuel' raw_org clean_org name_raw_test
                   (extracted_positions ++ [clean_org])%list
          else org_loop fuel' raw_org clean_org name_raw extracted_positions
      end
  end.

(** The [for raw_org, clean_org in ....items()] loop. *)
Fixpoint org_table_loop (fuel : nat) (table : list (string * string))
    (name_raw : string) (extracted_positions : list string)
  : result (string * list string) :=
  match table with
  | [] => Ok (name_raw, extracted_positions)
  | (raw_org, clean_org) :: rest =>
      st <- org_loop fuel raw_org clean_org name_raw extracted_positions ;;
      org_table_loop fuel rest (fst st) (snd st)
  end.

Definition extract_raw_org_names_from_name (fuel : nat) (name_raw : string)
  : result (string * list string) :=
  st <- org_table_loop fuel RAW_ORG_TO_CLEAN_ORG_DICT name_raw [] ;;
  let name_raw := PyStr.strip ", " (fst st) in
  let extracted_positions := snd st in
  st2 <-
    (if (0 <? String.length name_raw)%nat then
       r <- parse_raw_name_plain name_raw 0 ;;
       let '(p_first, p_middle, p_last, _) := r in
       if negb (check_if_this_person_looks_valid (of_names p_last p_middle p_first))
       then
         match PyRe.search_comma_tail name_raw with
         | Some (hit_start, hit_end) =>
             let extracted_position := PyStr.strip ", " (PyStr.drop hit_start name_raw) in
             let name_raw_without_org := cut name_raw hit_start hit_end in
             r2 <- parse_raw_name_plain name_raw_without_org 0 ;;
             let '(q_first, q_middle, q_last, _) := r2 in
             if check_if_this_person_looks_valid (of_names q_last q_middle q_first)
             then Ok (name_raw_without_org, (extracted_positions ++ [extracted_position])%list)
             else Ok (name_raw, extracted_positions)
         | None => Ok (name_raw, extracted_positions)
         end
       else Ok (name_raw, extracted_positions)
     else Ok (name_raw, extracted_positions)) ;;
  Ok (PyStr.strip ", " (fst st2), snd st2).

(** [parse_raw_name(name_raw, count, extract_orgs)]. *)
Definition parse_raw_name (fuel : nat) (name_raw : string) (count : Z)
    (extract_orgs : bool) : result (string * string * string * Counter.t) :=
  let '(name_raw, extracted_positions) := parse_front name_raw in
  st <-
    (if extract_orgs then
       r <- extract_raw_org_names_from_name fuel name_raw ;;
       Ok (fst r, (extracted_positions ++ snd r)%list)
     else Ok (name_raw, extracted_positions)) ;;
  parse_back (fst st) (snd st) count.

(** The truth value and type test of the [docs_authored] and
    [docs_received] arguments. *)
Definition check_docs (arg : option docs_arg) (msg : string)
  : result (option (list string)) :=
  match arg with
  | None => Ok None
  | Some (DSet []) => Ok None
  | Some (DSet (d :: ds)) => Ok (Some (d :: ds))
  | Some (DOther false) => Ok None
  | Some (DOther true) => Raise (ValueError msg)
  end.

(** The loop that turns an iterable of positions into a [Counter]. *)
Definition positions_of_iterable (xs : list string) (count : Z) : Counter.t :=
  Counter.of_keys (fun i => PyStr.upper (PyRe.sub_periods i)) count xs.

Definition aliases_of_iterable (xs : list string) (count : Z) : Counter.t :=
  Counter.of_keys PyStr.upper count xs.

(** [Person.__init__].  When the [positions] argument is a [Counter],
    [self.positions] is that very object, so the in-place [+=] of the
    parsed positions is seen through both names; when it is another
    iterable, [self.positions] is a fresh [Counter] and the second
    conversion block builds another fresh one. *)
Definition init (fuel : nat) (name_raw : option string)
    (last first middle : string)
    (positions aliases : option counter_arg) (count : Z)
    (docs_authored docs_received : option docs_arg) : result t :=
  let positions :=
    match positions with
    | None => ACounter Counter.empty
    | Some a => a
    end in
  let self_positions :=
    match positions with
    | ACounter c => c
    | AIterable xs => positions_of_iterable xs count
    end in
  parsed <-
    match name_raw with
    | Some raw =>
        if PyStr.truthy raw then
          r <- parse_raw_name fuel raw count true ;;
          let '(p_first, p_middle, p_last, pos_raw) := r in
          Ok (p_first, p_middle, p_last,
              if Counter.truthy pos_raw
              then Counter.iadd self_positions pos_raw
              else self_positions)
        else Ok (first, middle, last, self_positions)
    | None => Ok (first, middle, last, self_positions)
    end ;;
  let '(first, middle, last, self_positions) := parsed in
  let aliases :=
    match aliases with
    | None =>
        match name_raw with
        | None => ACounter Counter.empty
        | Some raw => ACounter [(PyStr.upper raw, count)]
        end
    | Some a => a
    end in
  let self_last := PyStr.upper last in
  let self_first := PyStr.upper first in
  let self_middle := PyStr.upper middle in
  let self_positions :=
    match positions with
    | ACounter _ => self_positions
    | AIterable xs => positions_of_iterable xs count
    end in
  let self_aliases :=
    match aliases with
    | ACounter c => c
    | AIterable xs => aliases_of_iterable xs count
    end in
  self_docs_authored <-
    check_docs docs_authored "docs_authored for Person object has to be a set." ;;
  self_docs_received <-
    check_docs docs_received "docs_received for Person object has to be a set." ;;
  Ok (mk self_last self_first self_middle self_positions self_aliases count
         self_docs_authored self_docs_received).

(** [self.copy()]. *)
Definition copy (self : t) : result t :=
  init O None (Person.last self) (Person.first self) (Person.middle self)
    (Some (ACounter (copy_deep (Person.positions self))))
    (Some (ACounter (copy_deep (Person.aliases self))))
    (Person.count self) None None.

End WithParser.

End Person.

(* ================================================================== *)
(** * [backend/apps/main/models.py] *)
(* ================================================================== *)

Module Models.

(** A row of the [DjangoPerson] table; [positions] and [aliases] are
    the JSON texts of the two counters. *)
Record DjangoPerson : Type := mkDjangoPerson {
  last : string;
  first : string;
  middle : string;
  full_name : string;
  most_likely_org : string;
  positions : string;
  aliases : string;
  count : Z
}.

Definition multiple_message : string :=
  "Matched multiple DjangoPerson objects! Currently uses the first match".

Section WithParser.

Variable RAW_ORG_TO_CLEAN_ORG_DICT : list (string * string).
Variable HumanName : string -> Person.ParsedName.
Variable re_last_hit : string -> string -> option (nat * nat).

(** [DjangoPerson.objects.filter(aliases__contains=q)], in the table's
    default order. *)
Definition filter_aliases_contains (q : string) (db : list DjangoPerson)
  : list DjangoPerson :=
  filter (fun p => PyStr.contains q (aliases p)) db.

(** [person.save()] of a new row: [full_name] is a unique column. *)
Definition save (person : DjangoPerson) (db : list DjangoPerson)
  : result (list DjangoPerson) :=
  if existsb (fun p => String.eqb (full_name p) (full_name person)) db
  then Raise IntegrityError
  else Ok (db ++ [person])%list.

(** [match_djangoperson_from_name(parsed_name)] on the table [db]: the
    matched row, the table afterwards and the lines printed. *)
Definition match_djangoperson_from_name (fuel : nat) (parsed_name : string)
    (db : list DjangoPerson)
  : result (DjangoPerson * list DjangoPerson * list string) :=
  let name_with_quotes := String PyRepr.dquote parsed_name in
  match filter_aliases_contains name_with_quotes db with
  | [] =>
      person_original <-
        Person.init RAW_ORG_TO_CLEAN_ORG_DICT HumanName re_last_hit fuel
          (Some parsed_name) EmptyString EmptyString EmptyString None None 1 None None ;;
      let person :=
        mkDjangoPerson
          (Person.last person_original)
          (Person.first person_original)
          (Person.middle person_original)
          (Person.first person_original ++ " " ++ Person.middle person_original
             ++ " " ++ Person.last person_original)
          (Person.most_likely_position RAW_ORG_TO_CLEAN_ORG_DICT person_original)
          (Counter.json_dumps (Person.positions person_original))
          (Counter.json_dumps (Person.aliases person_original))
          (Person.count person_original) in
      db' <- save person db ;;
      Ok (person, db', [])
  | [person] => Ok (person, db, [])
  | person :: _ :: _ => Ok (person, db, [multiple_message])
  end.

(** The call the import loop makes for each raw name of a row. *)
Definition resolve (fuel : nat) (name : string) (db : list DjangoPerson)
  : result (DjangoPerson * list DjangoPerson * list string) :=
  match_djangoperson_from_name fuel (PyStr.upper name) db.

End WithParser.

End Models.

(* ================================================================== *)
(** * Concrete collaborators for the examples *)
(* ================================================================== *)

Module Sample.

(** The table entries that the tests of [person.py] exercise. *)
Definition table : list (string * string) :=
  [ ("COVINGTON AND BURLING", "Covington & Burling");
    ("UNK", "@skip@");
    ("PM", "Philip Morris");
    ("B&W", "Brown & Williamson") ].

Definition is_word (c : option ascii) : bool :=
  match c with
  | Some a =>
      let n := nat_of_ascii a in
      PyStr.is_alpha a || ((48 <=? n)%nat && (n <=? 57)%nat) || (n =? 95)%nat
  | None => false
  end.

(** [\b] between two neighbouring characters. *)
Definition boundary (a b : option ascii) : bool := xorb (is_word a) (is_word b).

(** The last of the non-overlapping whole-word occurrences of a literal
    [raw], scanning left to right: what [re.finditer] yields last for
    [\b raw \b] when [raw] has no regular-expression operator. *)
Fixpoint whole_word_go (raw : string) (prev : option ascii) (off skip : nat)
    (s : string) : option (nat * nat) :=
  match s with
  | EmptyString => None
  | String c rest =>
      match skip with
      | S k => whole_word_go raw (Some c) (S off) k rest
      | O =>
          let n := String.length raw in
          if (PyStr.startswith raw s && boundary prev (Some c)
              && boundary (String.get (n - 1) s) (String.get n s))%bool
          then
            match whole_word_go raw (Some c) (S off) (n - 1) rest with
            | Some later => Some later
            | None => Some (off, off + n)%nat
            end
          else whole_word_go raw (Some c) (S off) O rest
      end
  end.

Definition whole_word_hit (raw s : string) : option (nat * nat) :=
  whole_word_go raw None O O s.

Definition tokens (s : string) : list string :=
  filter PyStr.truthy (PyStr.split " " s).

(** A small splitter for names written [First Middle Last] or
    [Last, First Middle], without titles and suffixes. *)
Definition split_plain (s : string) : Person.ParsedName :=
  match tokens s with
  | [] => Person.mkParsedName EmptyString EmptyString EmptyString EmptyString
  | [f] => Person.mkParsedName f EmptyString EmptyString EmptyString
  | f :: rest =>
      Person.mkParsedName f (PyStr.join " " (removelast rest))
        (List.last rest EmptyString) EmptyString
  end.

Definition split_name (s : string) : Person.ParsedName :=
  match PyStr.split "," s with
  | l :: rest :: _ =>
      match tokens rest with
      | [] => split_plain l
      | f :: ms =>
          Person.mkParsedName f (PyStr.join " " ms) (PyStr.join " " (tokens l))
            EmptyString
      end
  | _ => split_plain s
  end.

(** An injective stand-in for [hash]: the text read as a number in base
    256 after a leading 1. *)
Definition text_code (s : string) : Z :=
  fold_left (fun acc c => (acc * 256 + Z.of_nat (nat_of_ascii c))%Z)
    (list_ascii_of_string s) 1%Z.

Definition parse_raw_name := Person.parse_raw_name table split_name whole_word_hit.
Definition init := Person.init table split_name whole_word_hit.
Definition resolve := Models.resolve table split_name whole_word_hit.

End Sample.

(* ================================================================== *)
(** * The behaviour the specification describes, in its own words *)
(* ================================================================== *)

Module Spec.

(** "Mapped to the skip sentinel in the table". *)
Definition mapped_to_skip (table : list (string * string)) (k : string) : bool :=
  match Person.clean_org_of table k with
  | Some clean => String.eqb clean Person.skip_sentinel
  | None => false
  end.

(** "No entry qualifies" for the pass over canonical organisations:
    every entry is absent from the table or mapped to the sentinel. *)
Definition no_official (table : list (string * string)) (c : Counter.t) : Prop :=
  forall k w, In (k, w) c ->
    Person.clean_org_of table k = None
    \/ Person.clean_org_of table k = Some Person.skip_sentinel.

(** An entry the fallback pass may return: not mapped to the sentinel
    and at least five characters long. *)
Definition fallback_ok (table : list (string * string)) (kv : string * Z) : bool :=
  negb (mapped_to_skip table (fst kv)) && (5 <=? String.length (fst kv))%nat.

(** "Return the first entry whose raw string length is at least 5,
    upper-cased; if nothing qualifies, the literal". *)
Definition fallback_result (table : list (string * string)) (c : Counter.t) : string :=
  match find (fallback_ok table) (Counter.most_common c) with
  | Some kv => PyStr.upper (fst kv)
  | None => Person.no_positions
  end.

(** The same choice with the 44 blanks the program puts before it. *)
Definition fallback_result_indented (table : list (string * string)) (c : Counter.t)
  : string :=
  match find (fallback_ok table) (Counter.most_common c) with
  | Some kv => Person.indent44 ++ PyStr.upper (fst kv)
  | None => Person.no_positions
  end.

(** "Equal last, first and middle strings and equal contents of the
    positions and aliases multisets". *)
Definition same_record_contents (p q : Person.t) : Prop :=
  Person.last p = Person.last q
  /\ Person.first p = Person.first q
  /\ Person.middle p = Person.middle q
  /\ Counter.same_contents (Person.positions p) (Person.positions q)
  /\ Counter.same_contents (Person.aliases p) (Person.aliases q).

(** The same, with the entries of each multiset also listed in the same
    [most_common] order. *)
Definition same_record_listing (p q : Person.t) : Prop :=
  Person.last p = Person.last q
  /\ Person.first p = Person.first q
  /\ Person.middle p = Person.middle q
  /\ Counter.most_common (Person.positions p) = Counter.most_common (Person.positions q)
  /\ Counter.most_common (Person.aliases p) = Counter.most_common (Person.aliases q).

(** "Neither first nor middle is non-empty after removal, or last is
    empty": the two letters are likely initials. *)
Definition false_positive (name : Person.ParsedName) : Prop :=
  (Person.hn_first name = EmptyString /\ Person.hn_middle name = EmptyString)
  \/ Person.hn_last name = EmptyString.

(** "Repeatedly ... taking the last match found ... each iteration":
    [removals n s s'] holds when [s'] is [s] after [n] accepted
    removals, each of the last match in the string as it then stands,
    none of them a false positive. *)
Inductive removals (HumanName : string -> Person.ParsedName)
    (re_last_hit : string -> string -> option (nat * nat)) (raw_org : string)
  : nat -> string -> string -> Prop :=
| removals_done (s : string) : removals HumanName re_last_hit raw_org O s s
| removals_step (n : nat) (s s' : string) (a b : nat) :
    re_last_hit raw_org s = Some (a, b) ->
    ~ false_positive (HumanName (Person.cut s a b)) ->
    removals HumanName re_last_hit raw_org n (Person.cut s a b) s' ->
    removals HumanName re_last_hit raw_org (S n) s s'.

(** Where the iteration for a spelling ends: "until no match remains",
    or at a match that is a false positive. *)
Definition stopped (HumanName : string -> Person.ParsedName)
    (re_last_hit : string -> string -> option (nat * nat)) (raw_org s : string)
  : Prop :=
  re_last_hit raw_org s = None
  \/ exists a b, re_last_hit raw_org s = Some (a, b)
                 /\ false_positive (HumanName (Person.cut s a b)).

(** "A whole-word (word-boundary-delimited) occurrence of rawOrg" at
    the span [(a, b)] of [s], for a spelling without operators. *)
Definition whole_word_match (raw_org s : string) (a b : nat) : Prop :=
  b = (a + String.length raw_org)%nat
  /\ PyStr.startswith raw_org (PyStr.drop a s) = true
  /\ Sample.boundary (match a with O => None | S a' => String.get a' s end)
                     (String.get a s) = true
  /\ Sample.boundary (String.get (b - 1) s) (String.get b s) = true.

End Spec.

(* ================================================================== *)
(** * Proof steps *)
(* ================================================================== *)

(** Case analysis on the pair a destructuring [let] takes apart, in a
    hypothesis or in the goal. *)
Ltac split_pair_in H :=
  match type of H with
  | context [match ?e with pair _ _ => _ end] => destruct e as [? ?]
  end.

Ltac split_pair_goal :=
  match goal with
  | |- context [match ?e with pair _ _ => _ end] => destruct e as [? ?]
  end.

(* ================================================================== *)
(** * Properties of the string primitives *)
(* ================================================================== *)

Lemma find_index_unfold (sub s : string) :
  PyStr.find_index sub s =
  if PyStr.startswith sub s then Some O
  else match s with
       | EmptyString => None
       | String _ rest => option_map S (PyStr.find_index sub rest)
       end.
Proof. destruct s; reflexivity. Qed.

Lemma drop_empty (n : nat) : PyStr.drop n EmptyString = EmptyString.
Proof. destruct n; reflexivity. Qed.

Lemma startswith_empty_r (sub : string) :
  PyStr.startswith sub EmptyString = true -> sub = EmptyString.
Proof. destruct sub; simpl; [reflexivity | discriminate]. Qed.

(** [find_index] returns the lowest index at which [sub] occurs. *)
Lemma find_index_Some (sub s : string) (i : nat) :
  PyStr.find_index sub s = Some i ->
  PyStr.startswith sub (PyStr.drop i s) = true /\
  forall j, (j < i)%nat -> PyStr.startswith sub (PyStr.drop j s) = false.
Proof.
  revert i. induction s as [| c rest IH]; intros i H; rewrite find_index_unfold in H.
  - destruct (PyStr.startswith sub EmptyString) eqn:E; [| discriminate].
    injection H as <-. split; [exact E | intros j Hj; lia].
  - destruct (PyStr.startswith sub (String c rest)) eqn:E.
    + injection H as <-. split; [exact E | intros j Hj; lia].
    + destruct (PyStr.find_index sub rest) as [k |] eqn:F; [| discriminate].
      simpl in H. injection H as <-. destruct (IH k eq_refl) as [Hk Hlt].
      split; [exact Hk |].
      intros [| j] Hj; [exact E | simpl; apply Hlt; lia].
Qed.

Lemma find_index_None (sub s : string) :
  PyStr.find_index sub s = None ->
  forall j, PyStr.startswith sub (PyStr.drop j s) = false.
Proof.
  induction s as [| c rest IH]; intros H j; rewrite find_index_unfold in H.
  - destruct (PyStr.startswith sub EmptyString) eqn:E; [discriminate |].
    rewrite drop_empty. exact E.
  - destruct (PyStr.startswith sub (String c rest)) eqn:E; [discriminate |].
    destruct (PyStr.find_index sub rest) eqn:F; [discriminate |].
    destruct j as [| j]; [exact E | simpl; apply IH; reflexivity].
Qed.

(** Conversely, a first occurrence at [i] is what [find_index] finds. *)
Lemma find_index_first (sub s : string) (i : nat) :
  PyStr.startswith sub (PyStr.drop i s) = true ->
  (forall j, (j < i)%nat -> PyStr.startswith sub (PyStr.drop j s) = false) ->
  PyStr.find_index sub s = Some i.
Proof.
  intros Hi Hlt. destruct (PyStr.find_index sub s) as [k |] eqn:F.
  - destruct (find_index_Some _ _ _ F) as [Hk Hklt].
    destruct (Nat.lt_trichotomy k i) as [L | [-> | L]].
    + rewrite (Hlt k L) in Hk. discriminate.
    + reflexivity.
    + rewrite (Hklt i L) in Hi. discriminate.
  - rewrite (find_index_None _ _ F i) in Hi. discriminate.
Qed.

Lemma take_length_min (s : string) (i : nat) :
  PyStr.take (Nat.min (String.length s) i) s = PyStr.take i s.
Proof.
  revert i. induction s as [| c rest IH]; intros [| i]; simpl; try reflexivity.
  now rewrite IH.
Qed.

Lemma slice_to_nat (s : string) (i : nat) :
  PyStr.slice_to s (Z.of_nat i) = PyStr.take i s.
Proof.
  unfold PyStr.slice_to, PyStr.clamp.
  destruct (Z.of_nat i <? 0)%Z eqn:E; [apply Z.ltb_lt in E; lia |].
  replace (Z.to_nat (Z.min (Z.of_nat (String.length s)) (Z.max 0 (Z.of_nat i))))
    with (Nat.min (String.length s) i) by lia.
  apply take_length_min.
Qed.

Lemma slice_from_0 (s : string) : PyStr.slice_from s 0 = s.
Proof.
  unfold PyStr.slice_from, PyStr.clamp.
  change (if (0 <? 0)%Z then (Z.of_nat (String.length s) + 0)%Z else 0%Z) with 0%Z.
  replace (Z.to_nat (Z.min (Z.of_nat (String.length s)) (Z.max 0 0))) with O by lia.
  reflexivity.
Qed.

Lemma upper_char_idem (c : ascii) :
  PyStr.upper_char (PyStr.upper_char c) = PyStr.upper_char c.
Proof.
  destruct c as [[] [] [] [] [] [] [] []]; reflexivity.
Qed.

Lemma upper_idem (s : string) : PyStr.upper (PyStr.upper s) = PyStr.upper s.
Proof.
  induction s as [| c rest IH]; simpl; [reflexivity |].
  now rewrite upper_char_idem, IH.
Qed.

(* ================================================================== *)
(** * The normaliser *)
(* ================================================================== *)

(** C9.  Log-tag stripping: a tag at index 0 leaves the string as it is
    (the slice from index 0 on); a tag whose first occurrence is at a
    positive index [i] truncates the string to its first [i]
    characters; without a tag the string is returned unchanged. *)
Theorem C9_remove_privlog_info (name_raw : string) :
  (PyStr.startswith Person.privlog_tag name_raw = true ->
   Person.remove_privlog_info name_raw = PyStr.slice_from name_raw 0
   /\ Person.remove_privlog_info name_raw = name_raw)
  /\
  (forall i : nat,
     (0 < i)%nat ->
     PyStr.startswith Person.privlog_tag (PyStr.drop i name_raw) = true ->
     (forall j, (j < i)%nat ->
        PyStr.startswith Person.privlog_tag (PyStr.drop j name_raw) = false) ->
     Person.remove_privlog_info name_raw = PyStr.take i name_raw)
  /\
  ((forall j, PyStr.startswith Person.privlog_tag (PyStr.drop j name_raw) = false) ->
   Person.remove_privlog_info name_raw = name_raw).
Proof.
  unfold Person.remove_privlog_info, PyStr.find. repeat split.
  - rewrite find_index_unfold, H. reflexivity.
  - rewrite find_index_unfold, H. apply slice_from_0.
  - intros i Hpos Hi Hlt.
    rewrite (find_index_first _ _ _ Hi Hlt).
    destruct (Z.of_nat i =? 0)%Z eqn:E0; [apply Z.eqb_eq in E0; lia |].
    destruct (0 <? Z.of_nat i)%Z eqn:E1; [| apply Z.ltb_ge in E1; lia].
    apply slice_to_nat.
  - intros Hnone.
    destruct (PyStr.find_index Person.privlog_tag name_raw) as [k |] eqn:F.
    + destruct (find_index_Some _ _ _ F) as [Hk _].
      rewrite Hnone in Hk. discriminate.
    + reflexivity.
Qed.

(** C9, at a tag in front, a tag in the middle and no tag. *)
Lemma C9_remove_privlog_info_witness :
  Person.remove_privlog_info "[Privlog:] TEMKO,SL" = "[Privlog:] TEMKO,SL"
  /\ Person.remove_privlog_info "Temko, Stanley L [Privlog:] TEMKO,SL"
     = "Temko, Stanley L "
  /\ Person.remove_privlog_info "DUNN WL" = "DUNN WL".
Proof.
  split; [| split].
  - apply (proj1 (C9_remove_privlog_info "[Privlog:] TEMKO,SL")). reflexivity.
  - apply (proj1 (proj2 (C9_remove_privlog_info
                           "Temko, Stanley L [Privlog:] TEMKO,SL")) 17%nat).
    + lia.
    + reflexivity.
    + intros j Hj. do 17 (destruct j as [| j]; [reflexivity |]). lia.
  - apply (proj2 (proj2 (C9_remove_privlog_info "DUNN WL"))).
    intros j. do 8 (destruct j as [| j]; [reflexivity |]). reflexivity.
Defined.

(** When the anchored pattern matches, every occurrence of the text of
    its group is deleted from the string. *)
Lemma remove_jr_sr_iii_match (name_raw group1 : string) :
  PyRe.search_jr_sr_iii name_raw = Some group1 ->
  Person.remove_jr_sr_iii name_raw = PyStr.replace group1 EmptyString name_raw.
Proof. intros H. unfold Person.remove_jr_sr_iii. now rewrite H. Qed.

Lemma remove_jr_sr_iii_no_match (name_raw : string) :
  PyRe.search_jr_sr_iii name_raw = None ->
  Person.remove_jr_sr_iii name_raw = name_raw.
Proof. intros H. unfold Person.remove_jr_sr_iii. now rewrite H. Qed.

(** C7.  Suffix-token removal on ["Chumney-RD-Jr, Smith-Jr"]: the
    pattern matches with group ["-Jr"], and the normaliser deletes both
    occurrences of ["-Jr"], not only the matched one, so the rest of the
    string is not preserved verbatim. *)
Theorem C7_remove_jr_sr_iii_deletes_every_occurrence :
  PyRe.search_jr_sr_iii "Chumney-RD-Jr, Smith-Jr" = Some "-Jr"
  /\ Person.remove_jr_sr_iii "Chumney-RD-Jr, Smith-Jr" = "Chumney-RD, Smith"
  /\ Person.remove_jr_sr_iii "Chumney-RD-Jr, Smith-Jr" <> "Chumney-RD, Smith-Jr".
Proof.
  split; [reflexivity | split; [reflexivity |]].
  intros H. vm_compute in H. discriminate H.
Qed.

(* ================================================================== *)
(** * [most_common] is a stable descending sort *)
(* ================================================================== *)

Section MostCommon.

Lemma insert_desc_perm (x : string * Z) (l : list (string * Z)) :
  Permutation (Counter.insert_desc x l) (x :: l).
Proof.
  induction l as [| y rest IH]; simpl; [apply Permutation_refl |].
  destruct (snd y <=? snd x)%Z; [apply Permutation_refl |].
  eapply perm_trans; [apply perm_skip, IH | apply perm_swap].
Qed.

Lemma most_common_perm (c : Counter.t) : Permutation (Counter.most_common c) c.
Proof.
  induction c as [| x rest IH]; simpl; [apply perm_nil |].
  eapply perm_trans; [apply insert_desc_perm | apply perm_skip, IH].
Qed.

Lemma most_common_in (c : Counter.t) (kv : string * Z) :
  In kv (Counter.most_common c) <-> In kv c.
Proof.
  split; apply Permutation_in;
    [apply most_common_perm | apply Permutation_sym, most_common_perm].
Qed.

Lemma most_common_nil (c : Counter.t) : Counter.most_common c = [] -> c = [].
Proof.
  intros H. apply Permutation_nil. rewrite <- H.
  apply most_common_perm.
Qed.

Lemma insert_desc_sorted (x : string * Z) (l : list (string * Z)) :
  StronglySorted Counter.desc l -> StronglySorted Counter.desc (Counter.insert_desc x l).
Proof.
  induction l as [| y rest IH]; intros Hs; simpl.
  - constructor; [constructor | constructor].
  - destruct (snd y <=? snd x)%Z eqn:E.
    + apply Z.leb_le in E. constructor; [exact Hs |].
      constructor; [exact E |].
      apply StronglySorted_inv in Hs. destruct Hs as [_ Hall].
      rewrite Forall_forall in *. intros z Hz. specialize (Hall z Hz).
      unfold Counter.desc in *. lia.
    + apply Z.leb_gt in E.
      pose proof (StronglySorted_inv Hs) as [Hrest Hall].
      constructor; [apply IH, Hrest |].
      rewrite Forall_forall in *. intros z Hz.
      apply (Permutation_in _ (insert_desc_perm x rest)) in Hz.
      destruct Hz as [<- | Hz]; [unfold Counter.desc; lia | apply Hall, Hz].
Qed.

Lemma most_common_sorted (c : Counter.t) : StronglySorted Counter.desc (Counter.most_common c).
Proof.
  induction c as [| x rest IH]; simpl; [constructor | apply insert_desc_sorted, IH].
Qed.

(** The first entry of [most_common] has the highest count. *)
Lemma most_common_head_max (c : Counter.t) (kv : string * Z) (rest : list (string * Z)) :
  Counter.most_common c = kv :: rest ->
  forall k w, In (k, w) c -> (w <= snd kv)%Z.
Proof.
  intros H k w Hin. apply most_common_in in Hin. rewrite H in Hin.
  pose proof (most_common_sorted c) as Hs. rewrite H in Hs.
  apply StronglySorted_inv in Hs. destruct Hs as [_ Hall].
  destruct Hin as [-> | Hin]; [simpl; lia |].
  rewrite Forall_forall in Hall. apply (Hall _ Hin).
Qed.

Lemma nodup_snd_inj (l : list (string * Z)) (a b : string * Z) :
  NoDup (map snd l) -> In a l -> In b l -> snd a = snd b -> a = b.
Proof.
  induction l as [| x rest IH]; simpl; intros Hnd Ha Hb Hab; [contradiction |].
  inversion Hnd as [| ? ? Hnotin Hnd']; subst.
  destruct Ha as [-> | Ha], Hb as [-> | Hb].
  - reflexivity.
  - exfalso. apply Hnotin. rewrite Hab. apply in_map, Hb.
  - exfalso. apply Hnotin. rewrite <- Hab. apply in_map, Ha.
  - apply IH; assumption.
Qed.

(** Two descending listings of the same entries are equal when no two
    entries have the same count. *)
Lemma sorted_perm_unique (l1 l2 : list (string * Z)) :
  StronglySorted Counter.desc l1 -> StronglySorted Counter.desc l2 ->
  Permutation l1 l2 -> NoDup (map snd l1) -> l1 = l2.
Proof.
  revert l2. induction l1 as [| a r1 IH]; intros l2 H1 H2 Hp Hnd.
  - apply Permutation_nil in Hp. now subst.
  - destruct l2 as [| b r2].
    + apply Permutation_sym, Permutation_nil in Hp. discriminate.
    + assert (Hab : a = b).
      { apply (nodup_snd_inj (a :: r1)); [exact Hnd | now left | |].
        - apply (Permutation_in _ (Permutation_sym Hp)). now left.
        - apply StronglySorted_inv in H1. destruct H1 as [_ A1].
          apply StronglySorted_inv in H2. destruct H2 as [_ A2].
          rewrite Forall_forall in A1, A2.
          assert (Hb : In b (a :: r1))
            by (apply (Permutation_in _ (Permutation_sym Hp)); now left).
          assert (Ha : In a (b :: r2))
            by (apply (Permutation_in _ Hp); now left).
          destruct Hb as [-> | Hb]; [reflexivity |].
          destruct Ha as [<- | Ha]; [reflexivity |].
          specialize (A1 _ Hb). specialize (A2 _ Ha). unfold Counter.desc in *. lia. }
      subst b. f_equal.
      apply StronglySorted_inv in H1. apply StronglySorted_inv in H2.
      apply IH; try tauto.
      * eapply Permutation_cons_inv, Hp.
      * simpl in Hnd. now inversion Hnd.
Qed.

(** Whatever the insertion order, counters with the same entries and
    pairwise different counts have the same [most_common] listing. *)
Lemma most_common_order_independent (c d : Counter.t) :
  Counter.same_contents c d -> NoDup (map snd c) ->
  Counter.most_common c = Counter.most_common d.
Proof.
  intros Hp Hnd. apply sorted_perm_unique.
  - apply most_common_sorted.
  - apply most_common_sorted.
  - eapply perm_trans; [apply most_common_perm |].
    eapply perm_trans; [exact Hp | apply Permutation_sym, most_common_perm].
  - eapply Permutation_NoDup; [| exact Hnd].
    apply Permutation_map, Permutation_sym, most_common_perm.
Qed.

End MostCommon.

(* ================================================================== *)
(** * [most_likely_position] *)
(* ================================================================== *)

(** C8.  When the highest weight among the positions is exactly 1,
    [most_likely_position] returns ["no positions available"], however
    many positions there are. *)
Theorem C8_top_weight_one (table : list (string * string)) (self : Person.t)
    (k : string) :
  In (k, 1%Z) (Person.positions self) ->
  (forall k' w', In (k', w') (Person.positions self) -> (w' <= 1)%Z) ->
  Person.most_likely_position table self = Person.no_positions.
Proof.
  intros Hin Hmax. unfold Person.most_likely_position.
  destruct (Counter.most_common (Person.positions self)) as [| [k0 w0] rest] eqn:E.
  - apply most_common_nil in E. rewrite E in Hin. contradiction.
  - assert (H1 : (1 <= w0)%Z) by exact (most_common_head_max _ _ _ E k 1%Z Hin).
    assert (H2 : (w0 <= 1)%Z).
    { apply (Hmax k0). apply most_common_in. rewrite E. now left. }
    assert (w0 = 1%Z) by lia. subst w0. reflexivity.
Qed.

(** C8, on three positions of which the heaviest weighs 1. *)
Lemma C8_top_weight_one_witness :
  Person.most_likely_position Sample.table
    (Person.mk "DUNN" "W" "L"
       [("PHD", 0%Z); ("PM", 1%Z); ("PHILIP MORRIS", 1%Z)] [("DUNN WL", 2%Z)] 2 None None)
  = "no positions available".
Proof.
  apply (C8_top_weight_one Sample.table _ "PM").
  - simpl. right. left. reflexivity.
  - simpl. intros k' w' [H | [H | [H | []]]]; injection H as _ <-; lia.
Defined.

Lemma official_scan_none (table : list (string * string)) (l : list (string * Z)) :
  (forall k w, In (k, w) l ->
     w <> 1%Z /\
     (Person.clean_org_of table k = None
      \/ Person.clean_org_of table k = Some Person.skip_sentinel)) ->
  Person.official_scan table l = None.
Proof.
  induction l as [| [k w] rest IH]; intros H; simpl; [reflexivity |].
  destruct (H k w (or_introl eq_refl)) as [Hw Hk].
  destruct (w =? 1)%Z eqn:E; [apply Z.eqb_eq in E; contradiction |].
  assert (IH' : Person.official_scan table rest = None).
  { apply IH. intros k' w' Hin. apply H. now right. }
  destruct Hk as [-> | ->]; [exact IH' |].
  rewrite String.eqb_refl. exact IH'.
Qed.

(** The second loop returns the first entry that is not mapped to the
    sentinel and has at least five characters, after 44 blanks. *)
Lemma fallback_scan_find (table : list (string * string)) (l : list (string * Z)) :
  Person.fallback_scan table l =
  option_map (fun kv => Person.indent44 ++ PyStr.upper (fst kv))
             (find (Spec.fallback_ok table) l).
Proof.
  induction l as [| [k w] rest IH]; [reflexivity |].
  cbn [Person.fallback_scan find].
  unfold Spec.fallback_ok at 1. unfold Spec.mapped_to_skip. cbn [fst].
  rewrite IH. rewrite (Nat.leb_antisym (String.length k) 5).
  destruct (Person.clean_org_of table k) as [clean |].
  - destruct (String.eqb clean Person.skip_sentinel); [reflexivity |].
    destruct (String.length k <? 5)%nat; reflexivity.
  - destruct (String.length k <? 5)%nat; reflexivity.
Qed.

(** C4, as amended.  When no position has weight 1 and no position is
    an official organisation (each is absent from the table or mapped
    to the sentinel), [most_likely_position] returns 44 blanks followed
    by the upper-cased first position, in descending-weight order, that
    is not mapped to the sentinel and has at least 5 characters; when
    there is none it returns ["no positions available"]. *)
Theorem C4_fallback_indented (table : list (string * string)) (self : Person.t) :
  (forall k w, In (k, w) (Person.positions self) -> w <> 1%Z) ->
  Spec.no_official table (Person.positions self) ->
  Person.most_likely_position table self
  = Spec.fallback_result_indented table (Person.positions self).
Proof.
  intros Hw Hoff. unfold Person.most_likely_position, Spec.fallback_result_indented.
  rewrite official_scan_none.
  - rewrite fallback_scan_find.
    destruct (Person.positions self) as [| x rest] eqn:E; [reflexivity |].
    change (0 <? List.length (x :: rest))%nat with true. cbv iota.
    destruct (find (Spec.fallback_ok table) (Counter.most_common (x :: rest)));
      reflexivity.
  - intros k w Hin. apply (proj1 (most_common_in _ _)) in Hin.
    split; [exact (Hw k w Hin) | exact (Hoff k w Hin)].
Qed.

(** C4 as amended, on two unofficial positions of weights 3 and 2. *)
Lemma C4_fallback_indented_witness :
  Person.most_likely_position Sample.table
    (Person.mk "DUNN" "W" "L" [("RJR", 2%Z); ("Harvard", 3%Z)] [] 5 None None)
  = "                                            HARVARD".
Proof.
  apply (C4_fallback_indented Sample.table
           (Person.mk "DUNN" "W" "L" [("RJR", 2%Z); ("Harvard", 3%Z)] [] 5 None None)).
  - simpl. intros k w [H | [H | []]]; injection H as _ <-; lia.
  - unfold Spec.no_official. simpl.
    intros k w [H | [H | []]]; injection H as <- _; left; reflexivity.
Defined.

(** C4 as stated fails: with the single position ["ABCDE"] of weight 2
    and an empty table, the claim promises ["ABCDE"], and the program
    returns that text after 44 blanks. *)
Lemma C4_counterexample :
  ~ (forall (table : list (string * string)) (self : Person.t),
       Spec.no_official table (Person.positions self) ->
       Person.most_likely_position table self
       = Spec.fallback_result table (Person.positions self)).
Proof.
  intros H.
  specialize (H [] (Person.mk "DUNN" "W" "L" [("ABCDE", 2%Z)] [] 2 None None)).
  assert (Hoff : Spec.no_official []
            (Person.positions
               (Person.mk "DUNN" "W" "L" [("ABCDE", 2%Z)] [] 2 None None))).
  { intros k w _. left. reflexivity. }
  specialize (H Hoff). vm_compute in H. discriminate H.
Qed.

(* ================================================================== *)
(** * Equality, hashing and copying of records *)
(* ================================================================== *)

(** The text of a counter is determined by its [most_common] listing. *)
Lemma repr_most_common (c d : Counter.t) :
  Counter.most_common c = Counter.most_common d -> Counter.repr c = Counter.repr d.
Proof.
  intros H. destruct c as [| x c'], d as [| y d'].
  - reflexivity.
  - symmetry in H. apply most_common_nil in H. discriminate.
  - apply most_common_nil in H. discriminate.
  - unfold Counter.repr. now rewrite H.
Qed.

(** Records with the same names and the same listings have the same
    hashed text. *)
Lemma hash_text_same_listing (p q : Person.t) :
  Spec.same_record_listing p q -> Person.hash_text p = Person.hash_text q.
Proof.
  intros (Hl & Hf & Hm & Hp & Ha). unfold Person.hash_text.
  now rewrite Hl, Hf, Hm, (repr_most_common _ _ Hp), (repr_most_common _ _ Ha).
Qed.

(** C1, as amended.  Two records with equal last, first and middle
    strings whose positions and whose aliases list the same entries in
    the same [most_common] order (descending weight, entries of equal
    weight in insertion order) compare equal and hash equally, under
    any hash function. *)
Theorem C1_same_listing_equal (hash : string -> Z) (p q : Person.t) :
  Spec.same_record_listing p q ->
  Person.eq hash p q = true /\ Person.hash_ hash p = Person.hash_ hash q.
Proof.
  intros H. unfold Person.eq, Person.hash_.
  rewrite (hash_text_same_listing p q H). split; [apply Z.eqb_refl | reflexivity].
Qed.

(** C1 as amended, on two records that accumulated the pairs
    [("PM", 2)] and [("RJR", 1)] in opposite orders. *)
Lemma C1_same_listing_equal_witness :
  Person.eq Sample.text_code
    (Person.mk "DUNN" "W" "L"
       (Counter.add_all Counter.empty [("PM", 2%Z); ("RJR", 1%Z)])
       [("DUNN WL", 3%Z)] 3 None None)
    (Person.mk "DUNN" "W" "L"
       (Counter.add_all Counter.empty [("RJR", 1%Z); ("PM", 2%Z)])
       [("DUNN WL", 3%Z)] 3 None None)
  = true.
Proof.
  apply (C1_same_listing_equal Sample.text_code).
  repeat split; reflexivity.
Defined.

(** With pairwise different weights inside each multiset, equal
    contents are enough: the insertion order does not show. *)
Lemma same_contents_distinct_weights_equal (hash : string -> Z) (p q : Person.t) :
  Spec.same_record_contents p q ->
  NoDup (map snd (Person.positions p)) ->
  NoDup (map snd (Person.aliases p)) ->
  Person.eq hash p q = true /\ Person.hash_ hash p = Person.hash_ hash q.
Proof.
  intros (Hl & Hf & Hm & Hp & Ha) Np Na.
  assert (Ht : Person.hash_text p = Person.hash_text q).
  { apply hash_text_same_listing.
    repeat split; try assumption; apply most_common_order_independent; assumption. }
  unfold Person.eq, Person.hash_. rewrite Ht. split; [apply Z.eqb_refl | reflexivity].
Qed.

(** C1 as stated fails: two records that accumulate [("PM", 1)] and
    [("RJR", 1)] in opposite orders have equal contents, and their
    hashed texts differ, so a hash function that separates the two
    texts tells the records apart. *)
Lemma C1_counterexample :
  ~ (forall (hash : string -> Z) (p q : Person.t),
       Spec.same_record_contents p q ->
       Person.eq hash p q = true /\ Person.hash_ hash p = Person.hash_ hash q).
Proof.
  intros H.
  specialize (H Sample.text_code
    (Person.mk "DUNN" "W" "L"
       (Counter.add_all Counter.empty [("PM", 1%Z); ("RJR", 1%Z)])
       [("DUNN WL", 2%Z)] 2 None None)
    (Person.mk "DUNN" "W" "L"
       (Counter.add_all Counter.empty [("RJR", 1%Z); ("PM", 1%Z)])
       [("DUNN WL", 2%Z)] 2 None None)).
  match type of H with
  | ?A -> _ => assert (Hsame : A)
  end.
  { repeat split; try reflexivity.
    unfold Counter.same_contents. cbn. apply perm_swap. }
  destruct (H Hsame) as [Heq _].
  vm_compute in Heq. discriminate Heq.
Qed.

Lemma init_explicit_fields (table : list (string * string))
    (HumanName : string -> Person.ParsedName)
    (re_last_hit : string -> string -> option (nat * nat))
    (fuel : nat) (last first middle : string)
    (positions aliases : option Person.counter_arg) (count : Z) :
  Person.init table HumanName re_last_hit fuel None last first middle
    positions aliases count None None
  = Ok (Person.mk (PyStr.upper last) (PyStr.upper first) (PyStr.upper middle)
          match positions with
          | None => Counter.empty
          | Some (Person.ACounter c) => c
          | Some (Person.AIterable xs) => Person.positions_of_iterable xs count
          end
          match aliases with
          | None => Counter.empty
          | Some (Person.ACounter c) => c
          | Some (Person.AIterable xs) => Person.aliases_of_iterable xs count
          end
          count None None).
Proof.
  unfold Person.init.
  destruct positions as [[c | xs] |], aliases as [[d | ys] |]; reflexivity.
Qed.

(** C10.  A record built from explicit fields, without document sets,
    has a copy with the same last, first and middle strings, the same
    positions and aliases and the same count, and the copy compares
    equal to the record. *)
Theorem C10_copy_equal (table : list (string * string))
    (HumanName : string -> Person.ParsedName)
    (re_last_hit : string -> string -> option (nat * nat))
    (hash : string -> Z) (fuel : nat) (last first middle : string)
    (positions aliases : option Person.counter_arg) (count : Z) :
  exists p q,
    Person.init table HumanName re_last_hit fuel None last first middle
      positions aliases count None None = Ok p
    /\ Person.copy table HumanName re_last_hit p = Ok q
    /\ Person.last q = Person.last p
    /\ Person.first q = Person.first p
    /\ Person.middle q = Person.middle p
    /\ Person.positions q = Person.positions p
    /\ Person.aliases q = Person.aliases p
    /\ Person.count q = Person.count p
    /\ Person.eq hash q p = true.
Proof.
  rewrite init_explicit_fields.
  eexists. eexists. split; [reflexivity |].
  unfold Person.copy. rewrite init_explicit_fields. cbn [Person.last Person.first
    Person.middle Person.positions Person.aliases Person.count Person.copy_deep].
  rewrite !upper_idem.
  split; [reflexivity |]. cbn.
  repeat (split; [reflexivity |]).
  unfold Person.eq. apply Z.eqb_refl.
Qed.

(* ================================================================== *)
(** * Parsing, organisation extraction and construction *)
(* ================================================================== *)

Section Parsing.

Variable table : list (string * string).
Variable HumanName : string -> Person.ParsedName.
Variable re_last_hit : string -> string -> option (nat * nat).

Local Abbreviation org_loop := (Person.org_loop HumanName re_last_hit).
Local Abbreviation org_table_loop := (Person.org_table_loop HumanName re_last_hit).
Local Abbreviation extract_raw_org_names_from_name :=
  (Person.extract_raw_org_names_from_name table HumanName re_last_hit).
Local Abbreviation parse_raw_name := (Person.parse_raw_name table HumanName re_last_hit).
Local Abbreviation parse_raw_name_plain := (Person.parse_raw_name_plain table HumanName).
Local Abbreviation init := (Person.init table HumanName re_last_hit).

(** With [extract_orgs=False] the two entry points agree. *)
Lemma parse_raw_name_no_orgs (fuel : nat) (name_raw : string) (count : Z) :
  parse_raw_name fuel name_raw count false = parse_raw_name_plain name_raw count.
Proof.
  unfold Person.parse_raw_name, Person.parse_raw_name_plain.
  destruct (Person.parse_front name_raw) as [n ex]. reflexivity.
Qed.

(** One round of the loop for a spelling of two characters with a hit
    in the working string: when the string with the hit removed splits
    into a name with neither first nor middle name, or with no last
    name, the loop for that spelling ends with the string and the
    recorded positions unchanged; otherwise the loop goes on with the
    hit removed and the entry's canonical organisation recorded. *)
Lemma org_loop_two_letter_step (fuel : nat) (raw_org clean_org name_raw : string)
    (extracted_positions : list string) (hit_start hit_end : nat) :
  String.length raw_org = 2%nat ->
  re_last_hit raw_org name_raw = Some (hit_start, hit_end) ->
  let name_raw_test := Person.cut name_raw hit_start hit_end in
  let name := HumanName name_raw_test in
  let false_positive :=
    (Person.hn_first name = EmptyString /\ Person.hn_middle name = EmptyString)
    \/ Person.hn_last name = EmptyString in
  (false_positive ->
   org_loop (S fuel) raw_org clean_org name_raw extracted_positions
   = Ok (name_raw, extracted_positions))
  /\
  (~ false_positive ->
   org_loop (S fuel) raw_org clean_org name_raw extracted_positions
   = org_loop fuel raw_org clean_org name_raw_test
       (extracted_positions ++ [clean_org])%list).
Proof.
  intros Hlen Hhit name_raw_test name false_positive.
  cbn [Person.org_loop]. rewrite Hhit, Hlen.
  change (3 <=? 2)%nat with false. change (2 =? 2)%nat with true. cbv iota.
  fold name_raw_test. fold name.
  subst false_positive.
  destruct (Person.hn_first name) as [| a f], (Person.hn_middle name) as [| b m],
    (Person.hn_last name) as [| c l]; cbn [PyStr.truthy negb andb];
    split; intros H; try reflexivity; exfalso;
    try (apply H; tauto);
    destruct H as [[H1 H2] | H]; discriminate.
Qed.

(** When nothing in the working string matches any spelling, the table
    loop leaves the string and the positions as they are. *)
Lemma org_table_loop_no_hit (fuel : nat) (tbl : list (string * string))
    (name_raw : string) (extracted_positions : list string) :
  (forall raw_org, re_last_hit raw_org name_raw = None) ->
  org_table_loop (S fuel) tbl name_raw extracted_positions
  = Ok (name_raw, extracted_positions).
Proof.
  intros Hno. induction tbl as [| [raw_org clean_org] rest IH]; [reflexivity |].
  cbn [Person.org_table_loop Person.org_loop]. rewrite Hno. exact IH.
Qed.

(** A lone ["#"] makes the parser index an empty string. *)
Lemma parse_hash_sign_raises (fuel : nat) (count : Z) :
  (forall raw_org, re_last_hit raw_org "#" = None) ->
  parse_raw_name (S fuel) "#" count true = Raise IndexError.
Proof.
  intros Hno. unfold Person.parse_raw_name.
  change (Person.parse_front "#") with ("#", @nil string).
  unfold Person.extract_raw_org_names_from_name.
  rewrite (org_table_loop_no_hit fuel table "#" [] Hno).
  reflexivity.
Qed.

(** C2.  Parsing is not total: on the empty string and on a string of
    one character, the parser raises [IndexError] at [name_raw[-2]],
    with and without organisation extraction. *)
Theorem C2_parse_raw_name_raises (fuel : nat) (count : Z) :
  parse_raw_name fuel EmptyString count false = Raise IndexError
  /\ parse_raw_name fuel "A" count false = Raise IndexError
  /\ ((forall raw_org, re_last_hit raw_org EmptyString = None) ->
      parse_raw_name (S fuel) EmptyString count true = Raise IndexError)
  /\ ((forall raw_org, re_last_hit raw_org "#" = None) ->
      parse_raw_name (S fuel) "#" count true = Raise IndexError).
Proof.
  split; [| split; [| split]].
  - rewrite parse_raw_name_no_orgs. reflexivity.
  - rewrite parse_raw_name_no_orgs. reflexivity.
  - intros Hno. unfold Person.parse_raw_name.
    change (Person.parse_front EmptyString) with (EmptyString, @nil string).
    unfold Person.extract_raw_org_names_from_name.
    rewrite (org_table_loop_no_hit fuel table EmptyString [] Hno).
    reflexivity.
  - apply parse_hash_sign_raises.
Qed.

(** With a [Counter] as [positions], the parsed positions are added to
    it by [+=]. *)
Lemma init_counter_positions (fuel : nat) (raw last first middle : string)
    (c : Counter.t) (aliases : option Person.counter_arg) (count : Z)
    (r : string * string * string * Counter.t) :
  PyStr.truthy raw = true ->
  parse_raw_name fuel raw count true = Ok r ->
  exists p,
    init fuel (Some raw) last first middle (Some (Person.ACounter c)) aliases count
      None None = Ok p
    /\ Person.positions p
       = if Counter.truthy (snd r) then Counter.iadd c (snd r) else c.
Proof.
  intros Hraw Hparse. unfold Person.init. rewrite Hraw, Hparse.
  destruct r as [[[f m] l] pos_raw]. cbn [bind snd].
  eexists. split; reflexivity.
Qed.

(** Without an [aliases] argument, the aliases are the upper-cased raw
    string with the count. *)
Lemma init_default_aliases (fuel : nat) (raw last first middle : string)
    (positions : option Person.counter_arg) (count : Z) (p : Person.t) :
  init fuel (Some raw) last first middle positions None count None None = Ok p ->
  Person.aliases p = [(PyStr.upper raw, count)].
Proof.
  unfold Person.init. intros H.
  destruct (PyStr.truthy raw).
  - destruct (parse_raw_name fuel raw count true) as [[[[f m] l] pos_raw] | e |];
      cbn [bind] in H; try discriminate.
    destruct positions as [[c | xs] |]; injection H as <-; reflexivity.
  - cbn [bind] in H.
    destruct positions as [[c | xs] |]; injection H as <-; reflexivity.
Qed.

(** C3.  With a plain collection as [positions], the record is built,
    and its positions are those of the collection alone: whatever the
    parser extracted from the raw string is not among them. *)
Theorem C3_iterable_positions_lose_parsed (fuel : nat)
    (raw last first middle : string) (xs : list string)
    (aliases : option Person.counter_arg) (count : Z)
    (r : string * string * string * Counter.t) :
  PyStr.truthy raw = true ->
  parse_raw_name fuel raw count true = Ok r ->
  exists p,
    init fuel (Some raw) last first middle (Some (Person.AIterable xs)) aliases count
      None None = Ok p
    /\ Person.positions p = Person.positions_of_iterable xs count.
Proof.
  intros Hraw Hparse. unfold Person.init. rewrite Hraw, Hparse.
  destruct r as [[[f m] l] pos_raw]. cbn [bind].
  eexists. split; reflexivity.
Qed.

(** C5.  Resolving the alias ["#"] against a table where no row has an
    alias starting with it raises [IndexError] instead of creating a
    record. *)
Theorem C5_resolve_raises (fuel : nat) (db : list Models.DjangoPerson) :
  (forall raw_org, re_last_hit raw_org "#" = None) ->
  Models.filter_aliases_contains (String PyRepr.dquote "#") db = [] ->
  Models.resolve table HumanName re_last_hit (S fuel) "#" db = Raise IndexError.
Proof.
  intros Hno Hdb. unfold Models.resolve, Models.match_djangoperson_from_name.
  change (PyStr.upper "#") with "#". rewrite Hdb.
  unfold Person.init. cbn [PyStr.truthy].
  rewrite (parse_hash_sign_raises fuel 1 Hno). reflexivity.
Qed.

End Parsing.

(* ================================================================== *)
(** * The theorems above on the sample collaborators *)
(* ================================================================== *)

(** A whole-word search finds nothing in a string without a word
    character. *)
Lemma whole_word_hit_hash_sign (raw_org : string) :
  Sample.whole_word_hit raw_org "#" = None.
Proof.
  unfold Sample.whole_word_hit. cbn [Sample.whole_word_go].
  change (Sample.boundary None (Some "#"%char)) with false.
  rewrite andb_false_r. reflexivity.
Qed.

Lemma whole_word_hit_empty (raw_org : string) :
  Sample.whole_word_hit raw_org EmptyString = None.
Proof. reflexivity. Qed.

(** One round on ["TEMKO PM"], where the two letters are initials, and
    on ["TEMKO SL, PM"], where they are the organisation. *)
Lemma org_loop_two_letter_step_example :
  Person.org_loop Sample.split_name Sample.whole_word_hit 2 "PM" "Philip Morris"
    "TEMKO PM" [] = Ok ("TEMKO PM", [])
  /\ Person.org_loop Sample.split_name Sample.whole_word_hit 2 "PM" "Philip Morris"
       "TEMKO SL, PM" []
     = Person.org_loop Sample.split_name Sample.whole_word_hit 1 "PM" "Philip Morris"
         "TEMKO SL, " ["Philip Morris"].
Proof.
  split.
  - apply (proj1 (org_loop_two_letter_step Sample.split_name Sample.whole_word_hit 1
                    "PM" "Philip Morris" "TEMKO PM" [] 6 8 eq_refl eq_refl)).
    right. reflexivity.
  - apply (proj2 (org_loop_two_letter_step Sample.split_name Sample.whole_word_hit 1
                    "PM" "Philip Morris" "TEMKO SL, PM" [] 10 12 eq_refl eq_refl)).
    intros [[H _] | H]; vm_compute in H; discriminate H.
Defined.

(** C2, on the sample collaborators. *)
Lemma C2_parse_raw_name_raises_witness :
  Sample.parse_raw_name 1 EmptyString 1 false = Raise IndexError
  /\ Sample.parse_raw_name 1 "A" 1 false = Raise IndexError
  /\ Sample.parse_raw_name 1 EmptyString 1 true = Raise IndexError
  /\ Sample.parse_raw_name 1 "#" 1 true = Raise IndexError.
Proof.
  destruct (C2_parse_raw_name_raises Sample.table Sample.split_name
              Sample.whole_word_hit 0 1) as (H1 & H2 & H3 & H4).
  split; [exact H1 | split; [exact H2 | split]].
  - apply H3. exact whole_word_hit_empty.
  - apply H4. exact whole_word_hit_hash_sign.
Defined.

(** C3, on a raw name with a dash-delimited position and the explicit
    positions [["PHD"]]: the parser extracts the position, and the
    record holds only ["PHD"]. *)
Lemma C3_iterable_positions_lose_parsed_witness :
  Sample.parse_raw_name 1 "BAKER, T E - NATIONAL ASSOCIATION OF ATTORNEYS GENERAL" 1 true
  = Ok ("T", "E", "Baker", [("NATIONAL ASSOCIATION OF ATTORNEYS GENERAL", 1%Z)])
  /\ exists p,
       Sample.init 1 (Some "BAKER, T E - NATIONAL ASSOCIATION OF ATTORNEYS GENERAL")
         EmptyString EmptyString EmptyString (Some (Person.AIterable ["PHD"])) None 1
         None None = Ok p
       /\ Person.positions p = [("PHD", 1%Z)].
Proof.
  assert (Hparse :
    Sample.parse_raw_name 1 "BAKER, T E - NATIONAL ASSOCIATION OF ATTORNEYS GENERAL" 1 true
    = Ok ("T", "E", "Baker", [("NATIONAL ASSOCIATION OF ATTORNEYS GENERAL", 1%Z)])).
  { vm_compute. reflexivity. }
  split; [exact Hparse |].
  exact (C3_iterable_positions_lose_parsed Sample.table Sample.split_name
           Sample.whole_word_hit 1
           "BAKER, T E - NATIONAL ASSOCIATION OF ATTORNEYS GENERAL"
           EmptyString EmptyString EmptyString ["PHD"] None 1 _ eq_refl Hparse).
Defined.

(** C5, on an empty table and on a table whose only row has another
    alias. *)
Lemma C5_resolve_raises_witness :
  Sample.resolve 1 "#" [] = Raise IndexError
  /\ Sample.resolve 1 "#"
       [Models.mkDjangoPerson "DUNN" "W" "L" "W L DUNN" "no positions available"
          "{}" (Counter.json_dumps [("DUNN, WL", 1%Z)]) 1]
     = Raise IndexError.
Proof.
  split.
  - apply (C5_resolve_raises Sample.table Sample.split_name Sample.whole_word_hit 0 []).
    + exact whole_word_hit_hash_sign.
    + reflexivity.
  - apply (C5_resolve_raises Sample.table Sample.split_name Sample.whole_word_hit 0).
    + exact whole_word_hit_hash_sign.
    + reflexivity.
Defined.

(* ================================================================== *)
(** * The doctests and unit tests of [person.py] on the model *)
(* ================================================================== *)

Lemma init_of_names (table : list (string * string))
    (HumanName : string -> Person.ParsedName)
    (re_last_hit : string -> string -> option (nat * nat))
    (fuel : nat) (last first middle : string) :
  Person.init table HumanName re_last_hit fuel None last first middle None None 1
    None None
  = Ok (Person.of_names last middle first).
Proof. apply init_explicit_fields. Qed.

Example doctest_remove_jr_sr_iii_1 :
  Person.remove_jr_sr_iii "Chumney-RD-Jr, oeuo" = "Chumney-RD, oeuo".
Proof. reflexivity. Qed.

Example doctest_remove_jr_sr_iii_2 :
  Person.remove_jr_sr_iii "Chumney-R-III, oeuo" = "Chumney-R, oeuo".
Proof. reflexivity. Qed.

Example doctest_remove_jr_sr_iii_3 :
  Person.remove_jr_sr_iii "Chumney-r-III, oeuo" = "Chumney-r-III, oeuo".
Proof. reflexivity. Qed.

Example test_parse_org_1 :
  Person.extract_raw_org_names_from_name Sample.table Sample.split_name
    Sample.whole_word_hit 3 "TEMKO SL, COVINGTON AND BURLING"
  = Ok ("TEMKO SL", ["Covington & Burling"]).
Proof. vm_compute. reflexivity. Qed.

Example test_parse_org_2 :
  Person.extract_raw_org_names_from_name Sample.table Sample.split_name
    Sample.whole_word_hit 3 "TEMKO PM"
  = Ok ("TEMKO PM", []).
Proof. vm_compute. reflexivity. Qed.

Example test_parse_org_3 :
  Person.extract_raw_org_names_from_name Sample.table Sample.split_name
    Sample.whole_word_hit 3 "TEMKO PM, PM"
  = Ok ("TEMKO PM", ["Philip Morris"]).
Proof. vm_compute. reflexivity. Qed.

Example test_parse_org_4 :
  Person.extract_raw_org_names_from_name Sample.table Sample.split_name
    Sample.whole_word_hit 3 "TEMKO PM, UNK"
  = Ok ("TEMKO PM", []).
Proof. vm_compute. reflexivity. Qed.

Example test_parse_name_10 :
  Sample.parse_raw_name 3 "Temko, Stanley L [Privlog:] TEMKO,SL" 1 true
  = Ok ("Stanley", "L", "Temko", []).
Proof. vm_compute. reflexivity. Qed.

Example doctest_full_name_1 :
  match Sample.init 3 (Some "DUNN,WL") EmptyString EmptyString EmptyString
          None None 1 None None with
  | Ok p => Person.full_name p
  | _ => EmptyString
  end = "W. L. Dunn".
Proof. vm_compute. reflexivity. Qed.

Example doctest_full_name_2 :
  match Sample.init 3 (Some "Dunn, William Lee") EmptyString EmptyString EmptyString
          None None 1 None None with
  | Ok p => Person.full_name p
  | _ => EmptyString
  end = "William Lee Dunn".
Proof. vm_compute. reflexivity. Qed.

(* ================================================================== *)
(** * Counters as dictionaries: lookups after updates *)
(* ================================================================== *)

Section CounterFacts.

Lemma counter_get_notin (k : string) (c : Counter.t) :
  ~ In k (map fst c) -> Counter.get k c = 0%Z.
Proof.
  induction c as [| [k' v] rest IH]; simpl; intros H; [reflexivity |].
  destruct (String.eqb_spec k k') as [-> | Hne]; [exfalso; apply H; now left |].
  apply IH. intros Hin. apply H. now right.
Qed.

Lemma counter_get_in (k : string) (v : Z) (c : Counter.t) :
  NoDup (map fst c) -> In (k, v) c -> Counter.get k c = v.
Proof.
  induction c as [| [k' v'] rest IH]; simpl; intros Hnd Hin; [contradiction |].
  inversion Hnd as [| ? ? Hnotin Hnd']; subst.
  destruct Hin as [Heq | Hin].
  - injection Heq as -> ->. now rewrite String.eqb_refl.
  - destruct (String.eqb_spec k k') as [-> | Hne]; [| now apply IH].
    exfalso. apply Hnotin. change k' with (fst (k', v)). now apply in_map.
Qed.

Lemma counter_add_keys (k : string) (w : Z) (c : Counter.t) (x : string) :
  In x (map fst (Counter.add k w c)) <-> x = k \/ In x (map fst c).
Proof.
  induction c as [| [k' v] rest IH]; simpl.
  - intuition.
  - destruct (String.eqb_spec k k') as [-> | Hne]; simpl.
    + intuition.
    + rewrite IH. intuition.
Qed.

Lemma counter_add_nodup (k : string) (w : Z) (c : Counter.t) :
  NoDup (map fst c) -> NoDup (map fst (Counter.add k w c)).
Proof.
  induction c as [| [k' v] rest IH]; simpl; intros Hnd.
  - constructor; [intros [] | constructor].
  - inversion Hnd as [| ? ? Hnotin Hnd']; subst.
    destruct (String.eqb_spec k k') as [-> | Hne]; simpl.
    + constructor; assumption.
    + constructor; [| now apply IH].
      intros Hin. apply counter_add_keys in Hin. destruct Hin as [-> | Hin]; tauto.
Qed.

Lemma counter_get_add (k : string) (w : Z) (c : Counter.t) (x : string) :
  Counter.get x (Counter.add k w c)
  = if String.eqb x k then (Counter.get x c + w)%Z else Counter.get x c.
Proof.
  induction c as [| [k' v] rest IH]; simpl.
  - destruct (String.eqb x k); reflexivity.
  - destruct (String.eqb_spec k k') as [-> | Hne]; simpl.
    + destruct (String.eqb x k'); reflexivity.
    + destruct (String.eqb_spec x k') as [-> | Hne'].
      * destruct (String.eqb_spec k' k) as [-> | _]; [contradiction | reflexivity].
      * exact IH.
Qed.

Lemma counter_add_all_nodup (c other : Counter.t) :
  NoDup (map fst c) -> NoDup (map fst (Counter.add_all c other)).
Proof.
  unfold Counter.add_all. revert c.
  induction other as [| [k w] rest IH]; simpl; intros c Hnd; [exact Hnd |].
  apply IH. now apply counter_add_nodup.
Qed.

(** [for elem, count in other.items(): c[elem] += count] adds the two
    counts at every key. *)
Lemma counter_get_add_all (c other : Counter.t) (x : string) :
  NoDup (map fst other) ->
  Counter.get x (Counter.add_all c other) = (Counter.get x c + Counter.get x other)%Z.
Proof.
  unfold Counter.add_all. revert c.
  induction other as [| [k w] rest IH]; simpl; intros c Hnd; [lia |].
  inversion Hnd as [| ? ? Hnotin Hnd']; subst.
  rewrite (IH _ Hnd'), counter_get_add.
  destruct (String.eqb_spec x k) as [-> | Hne]; [| reflexivity].
  rewrite (counter_get_notin k rest Hnotin). lia.
Qed.

Lemma counter_keep_positive_keys (c : Counter.t) (x : string) :
  In x (map fst (Counter.keep_positive c)) -> In x (map fst c).
Proof.
  unfold Counter.keep_positive. intros H. apply in_map_iff in H.
  destruct H as [kv [<- Hin]]. apply filter_In in Hin. apply in_map, Hin.
Qed.

Lemma counter_keep_positive_nodup (c : Counter.t) :
  NoDup (map fst c) -> NoDup (map fst (Counter.keep_positive c)).
Proof.
  induction c as [| [k v] rest IH]; simpl; intros Hnd; [constructor |].
  inversion Hnd as [| ? ? Hnotin Hnd']; subst.
  destruct (0 <? v)%Z; simpl; [| now apply IH].
  constructor; [| now apply IH].
  intros Hin. apply Hnotin. now apply counter_keep_positive_keys.
Qed.

(** [_keep_positive] keeps the positive counts and reads [0] elsewhere. *)
Lemma counter_get_keep_positive (c : Counter.t) (x : string) :
  NoDup (map fst c) ->
  Counter.get x (Counter.keep_positive c)
  = if (0 <? Counter.get x c)%Z then Counter.get x c else 0%Z.
Proof.
  induction c as [| [k v] rest IH]; simpl; intros Hnd; [reflexivity |].
  inversion Hnd as [| ? ? Hnotin Hnd']; subst.
  destruct (String.eqb_spec x k) as [-> | Hne].
  - destruct (0 <? v)%Z eqn:E; simpl.
    + now rewrite String.eqb_refl.
    + apply counter_get_notin. intros Hin. apply Hnotin.
      now apply counter_keep_positive_keys.
  - destruct (0 <? v)%Z; simpl.
    + destruct (String.eqb_spec x k); [contradiction | now apply IH].
    + now apply IH.
Qed.

(** [c += other]: at every key the sum of the two counts when it is
    positive, and [0] (the key is gone) when it is not. *)
Lemma counter_get_iadd (c other : Counter.t) (x : string) :
  NoDup (map fst c) -> NoDup (map fst other) ->
  Counter.get x (Counter.iadd c other)
  = let s := (Counter.get x c + Counter.get x other)%Z in
    if (0 <? s)%Z then s else 0%Z.
Proof.
  intros Hc Ho. unfold Counter.iadd.
  rewrite counter_get_keep_positive by now apply counter_add_all_nodup.
  now rewrite counter_get_add_all.
Qed.

Lemma of_keys_fold_keys (f : string -> string) (w : Z) (xs : list string)
    (c : Counter.t) (x : string) :
  In x (map fst (fold_left (fun acc y => Counter.add (f y) w acc) xs c))
  <-> In x (map fst c) \/ In x (map f xs).
Proof.
  revert c. induction xs as [| y rest IH]; simpl; intros c; [tauto |].
  rewrite IH, counter_add_keys. intuition.
Qed.

Lemma of_keys_fold_nodup (f : string -> string) (w : Z) (xs : list string)
    (c : Counter.t) :
  NoDup (map fst c) ->
  NoDup (map fst (fold_left (fun acc y => Counter.add (f y) w acc) xs c)).
Proof.
  revert c. induction xs as [| y rest IH]; simpl; intros c Hnd; [exact Hnd |].
  apply IH. now apply counter_add_nodup.
Qed.

Lemma of_keys_fold_get (f : string -> string) (w : Z) (xs : list string)
    (c : Counter.t) (x : string) :
  Counter.get x (fold_left (fun acc y => Counter.add (f y) w acc) xs c)
  = (Counter.get x c + w * Z.of_nat (count_occ string_dec (map f xs) x))%Z.
Proof.
  revert c. induction xs as [| y rest IH]; simpl; intros c; [lia |].
  rewrite IH, counter_get_add.
  destruct (string_dec (f y) x) as [-> | Hne].
  - rewrite String.eqb_refl. lia.
  - destruct (String.eqb_spec x (f y)) as [-> | _]; [contradiction | lia].
Qed.

(** The constructor loops: the keys are distinct images of [f], and
    each weight is [w] times the number of items with that image. *)
Lemma of_keys_nodup (f : string -> string) (w : Z) (xs : list string) :
  NoDup (map fst (Counter.of_keys f w xs)).
Proof. apply of_keys_fold_nodup. constructor. Qed.

Lemma of_keys_get (f : string -> string) (w : Z) (xs : list string) (x : string) :
  Counter.get x (Counter.of_keys f w xs)
  = (w * Z.of_nat (count_occ string_dec (map f xs) x))%Z.
Proof. unfold Counter.of_keys. rewrite of_keys_fold_get. reflexivity. Qed.

Lemma of_keys_entry (f : string -> string) (w : Z) (xs : list string)
    (k : string) (v : Z) :
  In (k, v) (Counter.of_keys f w xs) ->
  In k (map f xs)
  /\ v = (w * Z.of_nat (count_occ string_dec (map f xs) k))%Z
  /\ (1 <= count_occ string_dec (map f xs) k)%nat.
Proof.
  intros Hin.
  assert (Hk : In k (map f xs)).
  { assert (H : In k (map fst (Counter.of_keys f w xs)))
      by (change k with (fst (k, v)); now apply in_map).
    apply of_keys_fold_keys in H. destruct H as [[] | H]. exact H. }
  split; [exact Hk | split].
  - rewrite <- of_keys_get. symmetry. apply counter_get_in; [apply of_keys_nodup | exact Hin].
  - apply (count_occ_In string_dec) in Hk. lia.
Qed.

End CounterFacts.

(* ================================================================== *)
(** * More on the normaliser *)
(* ================================================================== *)

Lemma startswith_take (p s : string) (n : nat) :
  PyStr.startswith p (PyStr.take n s) = true -> PyStr.startswith p s = true.
Proof.
  revert s n. induction p as [| a p' IH]; intros s n H; [reflexivity |].
  destruct n as [| n], s as [| b s']; simpl in *; try discriminate.
  apply andb_true_iff in H. destruct H as [Hab H]. rewrite Hab. simpl.
  now apply (IH s' n).
Qed.

Lemma drop_take (j n : nat) (s : string) :
  PyStr.drop j (PyStr.take n s) = PyStr.take (n - j) (PyStr.drop j s).
Proof.
  revert n s. induction j as [| j IH]; intros n s.
  - simpl. now rewrite Nat.sub_0_r.
  - destruct n as [| n], s as [| c s']; simpl; try reflexivity.
    + now destruct (n - j)%nat.
    + apply IH.
Qed.

Lemma take_append_drop (n : nat) (s : string) :
  PyStr.take n s ++ PyStr.drop n s = s.
Proof.
  revert s. induction n as [| n IH]; intros [| c s']; simpl; try reflexivity.
  now rewrite IH.
Qed.

Lemma find_index_absent (sub s : string) :
  (forall j, PyStr.startswith sub (PyStr.drop j s) = false) ->
  PyStr.find_index sub s = None.
Proof.
  intros H. destruct (PyStr.find_index sub s) as [k |] eqn:F; [| reflexivity].
  destruct (find_index_Some _ _ _ F) as [Hk _]. rewrite H in Hk. discriminate.
Qed.

(** What is kept in front of a tag holds no tag. *)
Lemma no_tag_before_first (s : string) (i : nat) :
  PyStr.find_index Person.privlog_tag s = Some i ->
  PyStr.find_index Person.privlog_tag (PyStr.take i s) = None.
Proof.
  intros F. destruct (find_index_Some _ _ _ F) as [_ Hlt].
  apply find_index_absent. intros j.
  destruct (PyStr.startswith Person.privlog_tag (PyStr.drop j (PyStr.take i s))) eqn:E;
    [| reflexivity].
  rewrite drop_take in E.
  destruct (Nat.lt_ge_cases j i) as [L | G].
  - apply startswith_take in E. rewrite (Hlt j L) in E. discriminate.
  - replace (i - j)%nat with O in E by lia. discriminate.
Qed.

(** X1.  [remove_privlog_info] returns a prefix of its argument, and
    applying it a second time changes nothing. *)
Theorem X1_remove_privlog_info_idempotent (name_raw : string) :
  (exists rest, name_raw = Person.remove_privlog_info name_raw ++ rest)
  /\ Person.remove_privlog_info (Person.remove_privlog_info name_raw)
     = Person.remove_privlog_info name_raw.
Proof.
  assert (Hcases :
    Person.remove_privlog_info name_raw = name_raw
    \/ exists i, PyStr.find_index Person.privlog_tag name_raw = Some i
                 /\ Person.remove_privlog_info name_raw = PyStr.take i name_raw).
  { unfold Person.remove_privlog_info, PyStr.find.
    destruct (PyStr.find_index Person.privlog_tag name_raw) as [[| i] |] eqn:F.
    - left. apply slice_from_0.
    - right. exists (S i). split; [reflexivity |].
      change (Z.of_nat (S i) =? 0)%Z with false.
      change (0 <? Z.of_nat (S i))%Z with true. apply slice_to_nat.
    - left. reflexivity. }
  destruct Hcases as [Hsame | [i [F Hcut]]].
  - rewrite !Hsame. split; [exists EmptyString | reflexivity].
    clear. induction name_raw as [| c s IH]; simpl; [reflexivity | now rewrite <- IH].
  - rewrite Hcut. split.
    + exists (PyStr.drop i name_raw). symmetry. apply take_append_drop.
    + unfold Person.remove_privlog_info at 1. unfold PyStr.find.
      rewrite (no_tag_before_first _ _ F). reflexivity.
Qed.

Lemma suffix_group_cases (s g : string) :
  PyRe.suffix_group s = Some g ->
  (g = "-Jr" \/ g = "-Sr" \/ g = "-III") /\ PyStr.startswith g s = true.
Proof.
  unfold PyRe.suffix_group. intros H.
  destruct (PyStr.startswith "-Jr" s) eqn:E1; [injection H as <-; tauto |].
  destruct (PyStr.startswith "-Sr" s) eqn:E2; [injection H as <-; tauto |].
  destruct (PyStr.startswith "-III" s) eqn:E3; [injection H as <-; tauto |].
  discriminate.
Qed.

(** A match of the anchored pattern: its group is one of the three
    tokens and stands somewhere in the string. *)
Lemma search_jr_sr_iii_group (s g : string) :
  PyRe.search_jr_sr_iii s = Some g ->
  (g = "-Jr" \/ g = "-Sr" \/ g = "-III")
  /\ exists i, PyStr.startswith g (PyStr.drop i s) = true.
Proof.
  unfold PyRe.search_jr_sr_iii. intros H.
  destruct s as [| c rest]; [discriminate |].
  destruct (PyStr.is_upper c); [| discriminate].
  destruct (PyRe.span_len PyStr.is_lower rest) as [| n] eqn:En; [discriminate |].
  destruct (PyStr.drop (S n) rest) as [| d rest'] eqn:Ed; [discriminate |].
  destruct (Ascii.eqb d "-"); [| discriminate].
  assert (Hd : forall k, PyStr.drop (S (S (S n)) + k) (String c rest) = PyStr.drop k rest').
  { intros k. change (PyStr.drop (S (S (S n)) + k) (String c rest))
      with (PyStr.drop (S (S n) + k) rest).
    clear -Ed. revert rest Ed. generalize (S n) as m.
    induction m as [| m IH]; intros rest Ed.
    - simpl in Ed. subst rest. reflexivity.
    - destruct rest as [| x rest0]; [discriminate |]. simpl in Ed.
      change (PyStr.drop (S (S m) + k) (String x rest0))
        with (PyStr.drop (S m + k) rest0). now apply IH. }
  unfold PyRe.initials_then_group in H.
  destruct rest' as [| a [| b r2]].
  - discriminate.
  - destruct (PyStr.is_upper a); [| discriminate].
    apply suffix_group_cases in H. destruct H as [Hg Hs]. split; [exact Hg |].
    exists (S (S (S n)) + 1)%nat. rewrite Hd. exact Hs.
  - destruct (PyStr.is_upper a && PyStr.is_upper b)%bool.
    + destruct (PyRe.suffix_group r2) as [g2 |] eqn:E2.
      * injection H as <-. apply suffix_group_cases in E2.
        destruct E2 as [Hg Hs]. split; [exact Hg |].
        exists (S (S (S n)) + 2)%nat. rewrite Hd. exact Hs.
      * destruct (PyStr.is_upper a); [| discriminate].
        apply suffix_group_cases in H. destruct H as [Hg Hs]. split; [exact Hg |].
        exists (S (S (S n)) + 1)%nat. rewrite Hd. exact Hs.
    + destruct (PyStr.is_upper a); [| discriminate].
      apply suffix_group_cases in H. destruct H as [Hg Hs]. split; [exact Hg |].
      exists (S (S (S n)) + 1)%nat. rewrite Hd. exact Hs.
Qed.

Lemma startswith_length (p s : string) :
  PyStr.startswith p s = true -> (String.length p <= String.length s)%nat.
Proof.
  revert s. induction p as [| a p' IH]; intros [| b s'] H; simpl in *;
    try lia; try discriminate.
  apply andb_true_iff in H. destruct H as [_ H]. apply IH in H. lia.
Qed.

(** Deleting occurrences: what is still to be skipped is gone from the
    result. *)
Lemma replace_go_delete_length (old : string) (k : nat) (s : string) :
  (String.length (PyStr.replace_go old EmptyString k s) + Nat.min k (String.length s)
   <= String.length s)%nat.
Proof.
  revert k. induction s as [| c rest IH]; intros k; simpl; [lia |].
  destruct k as [| k].
  - destruct (PyStr.startswith old (String c rest)).
    + simpl. specialize (IH (String.length old - 1)%nat). lia.
    + simpl. specialize (IH O). lia.
  - specialize (IH k). lia.
Qed.

(** Deleting every occurrence of a text that occurs shortens the string
    by at least its length. *)
Lemma replace_go_delete_hit (old s : string) (i : nat) :
  (1 <= String.length old)%nat ->
  PyStr.startswith old (PyStr.drop i s) = true ->
  (String.length (PyStr.replace_go old EmptyString O s) + String.length old
   <= String.length s)%nat.
Proof.
  intros Hold. revert i. induction s as [| c rest IH]; intros i Hi.
  - rewrite drop_empty in Hi. apply startswith_length in Hi. simpl in Hi. lia.
  - cbn [PyStr.replace_go].
    destruct (PyStr.startswith old (String c rest)) eqn:E.
    + apply startswith_length in E. simpl in E.
      pose proof (replace_go_delete_length old (String.length old - 1) rest).
      simpl. lia.
    + destruct i as [| i]; [simpl in Hi; rewrite Hi in E; discriminate |].
      simpl in Hi. specialize (IH i Hi). simpl. lia.
Qed.

(** X2.  [remove_jr_sr_iii] returns its argument, or its argument
    with every occurrence of one of ["-Jr"], ["-Sr"], ["-III"] deleted;
    in the second case the result is shorter by at least the token. *)
Theorem X2_remove_jr_sr_iii_only_tokens (name_raw : string) :
  Person.remove_jr_sr_iii name_raw = name_raw
  \/ exists g,
       (g = "-Jr" \/ g = "-Sr" \/ g = "-III")
       /\ Person.remove_jr_sr_iii name_raw = PyStr.replace g EmptyString name_raw
       /\ (String.length (Person.remove_jr_sr_iii name_raw) + String.length g
           <= String.length name_raw)%nat.
Proof.
  unfold Person.remove_jr_sr_iii.
  destruct (PyRe.search_jr_sr_iii name_raw) as [g |] eqn:E; [right | now left].
  destruct (search_jr_sr_iii_group _ _ E) as [Hg [i Hi]].
  exists g. split; [exact Hg | split; [reflexivity |]].
  assert (Hrep : PyStr.replace g EmptyString name_raw
                 = PyStr.replace_go g EmptyString O name_raw)
    by (destruct Hg as [-> | [-> | ->]]; reflexivity).
  rewrite Hrep. apply (replace_go_delete_hit g name_raw i); [| exact Hi].
  destruct Hg as [-> | [-> | ->]]; simpl; lia.
Qed.

(* ================================================================== *)
(** * What the parser returns *)
(* ================================================================== *)

Lemma get_in_range (i : nat) (s : string) :
  (i < String.length s)%nat -> exists c, String.get i s = Some c.
Proof.
  revert i. induction s as [| a rest IH]; intros i H; simpl in H; [lia |].
  destruct i as [| i]; simpl; [now exists a | apply IH; lia].
Qed.

(** [s[-2]] raises exactly when [s] has fewer than two characters. *)
Lemma index_minus_2 (s : string) :
  ((String.length s < 2)%nat -> PyStr.index s (-2) = None)
  /\ ((2 <= String.length s)%nat -> exists c, PyStr.index s (-2) = Some c).
Proof.
  unfold PyStr.index. change (-2 <? 0)%Z with true. cbv iota. split; intros H.
  - destruct ((0 <=? Z.of_nat (String.length s) + -2)
              && (Z.of_nat (String.length s) + -2 <? Z.of_nat (String.length s)))%Z%bool
      eqn:E; [| reflexivity].
    apply andb_true_iff in E. destruct E as [E _]. apply Z.leb_le in E. lia.
  - assert (E : ((0 <=? Z.of_nat (String.length s) + -2)
              && (Z.of_nat (String.length s) + -2 <? Z.of_nat (String.length s)))%Z%bool
              = true).
    { apply andb_true_iff. split; [apply Z.leb_le | apply Z.ltb_lt]; lia. }
    rewrite E. apply get_in_range. lia.
Qed.

Lemma lower_char_idem (c : ascii) :
  PyStr.lower_char (PyStr.lower_char c) = PyStr.lower_char c.
Proof. destruct c as [[] [] [] [] [] [] [] []]; reflexivity. Qed.

Lemma lower_idem (s : string) : PyStr.lower (PyStr.lower s) = PyStr.lower s.
Proof.
  induction s as [| c rest IH]; simpl; [reflexivity |].
  now rewrite lower_char_idem, IH.
Qed.

Lemma capitalize_idem (s : string) :
  PyStr.capitalize (PyStr.capitalize s) = PyStr.capitalize s.
Proof.
  destruct s as [| c rest]; simpl; [reflexivity |].
  now rewrite upper_char_idem, lower_idem.
Qed.

Section ParserResults.

Variable table : list (string * string).
Variable HumanName : string -> Person.ParsedName.
Variable re_last_hit : string -> string -> option (nat * nat).

Local Abbreviation parse_back := (Person.parse_back table HumanName).
Local Abbreviation parse_raw_name := (Person.parse_raw_name table HumanName re_last_hit).

(** The shape of a successful [parse_back]: capitalised names, and
    positions accumulated from a list of cleaned strings. *)
Lemma parse_back_shape (name_raw : string) (extracted_positions : list string)
    (count : Z) (f m l : string) (pos : Counter.t) :
  parse_back name_raw extracted_positions count = Ok (f, m, l, pos) ->
  (exists f0, f = PyStr.capitalize f0)
  /\ (exists m0, m = PyStr.capitalize m0)
  /\ (exists l0, l = PyStr.capitalize l0)
  /\ exists ys, pos = Counter.of_keys
                        (fun position => PyStr.upper (PyRe.sub_periods position))
                        count ys.
Proof.
  unfold Person.parse_back. intros H.
  destruct (PyStr.index (PyStr.strip " #" name_raw) (-2)) as [c2 |]; [| discriminate].
  cbv zeta in H. repeat split_pair_in H.
  injection H as <- <- <- <-.
  split; [eexists; reflexivity | split; [| split; [eexists; reflexivity |
    eexists; reflexivity]]].
  match goal with
  | |- context [if ?b then EmptyString else PyStr.capitalize ?x] =>
      destruct b; [exists EmptyString; reflexivity | exists x; reflexivity]
  end.
Qed.

(** [parse_back] fails only at the index, and then with [IndexError]. *)
Lemma parse_back_outcome (name_raw : string) (extracted_positions : list string)
    (count : Z) :
  ((String.length (PyStr.strip " #" name_raw) < 2)%nat ->
   parse_back name_raw extracted_positions count = Raise IndexError)
  /\ ((2 <= String.length (PyStr.strip " #" name_raw))%nat ->
      exists r, parse_back name_raw extracted_positions count = Ok r).
Proof.
  unfold Person.parse_back.
  destruct (index_minus_2 (PyStr.strip " #" name_raw)) as [Hshort Hlong].
  split; intros H.
  - now rewrite (Hshort H).
  - destruct (Hlong H) as [c2 ->]. cbv zeta. repeat split_pair_goal.
    eexists; reflexivity.
Qed.

(** X3.  Without organisation extraction, [parse_raw_name] raises
    [IndexError] exactly when fewer than two characters are left after
    the tag, suffix-token, dash and parenthesis steps and the removal of
    surrounding blanks and hash signs; otherwise it returns a result. *)
Theorem X3_parse_raw_name_plain_outcome (fuel : nat) (name_raw : string) (count : Z) :
  let residual := PyStr.strip " #" (fst (Person.parse_front name_raw)) in
  ((String.length residual < 2)%nat ->
   parse_raw_name fuel name_raw count false = Raise IndexError)
  /\ ((2 <= String.length residual)%nat ->
      exists r, parse_raw_name fuel name_raw count false = Ok r).
Proof.
  unfold Person.parse_raw_name.
  destruct (Person.parse_front name_raw) as [n ex]. cbn [fst snd bind].
  apply parse_back_outcome.
Qed.

(** X4.  Whenever [parse_raw_name] returns, with or without
    organisation extraction, the first, middle and last names are in
    capitalised form: capitalising them again changes nothing. *)
Theorem X4_parse_raw_name_capitalized (fuel : nat) (name_raw : string) (count : Z)
    (extract_orgs : bool) (f m l : string) (pos : Counter.t) :
  parse_raw_name fuel name_raw count extract_orgs = Ok (f, m, l, pos) ->
  PyStr.capitalize f = f /\ PyStr.capitalize m = m /\ PyStr.capitalize l = l.
Proof.
  unfold Person.parse_raw_name.
  destruct (Person.parse_front name_raw) as [n ex].
  match goal with
  | |- bind ?r _ = _ -> _ => destruct r as [st | e |]
  end; cbn [bind]; intros H; try discriminate.
  apply parse_back_shape in H.
  destruct H as ([f0 ->] & [m0 ->] & [l0 ->] & _).
  now rewrite !capitalize_idem.
Qed.

End ParserResults.

Lemma upper_char_period (c : ascii) :
  Ascii.eqb "."%char (PyStr.upper_char c) = Ascii.eqb "."%char c.
Proof. destruct c as [[] [] [] [] [] [] [] []]; reflexivity. Qed.

Lemma upper_mem_period (s : string) :
  PyStr.mem "."%char (PyStr.upper s) = PyStr.mem "."%char s.
Proof.
  induction s as [| c rest IH]; [reflexivity |].
  cbn [PyStr.upper PyStr.mem]. now rewrite upper_char_period, IH.
Qed.

Lemma sub_periods_no_period (s : string) :
  PyStr.mem "."%char (PyRe.sub_periods s) = false.
Proof.
  unfold PyRe.sub_periods, PyStr.replace.
  induction s as [| c rest IH]; [reflexivity |].
  cbn [PyStr.replace_go PyStr.startswith String.length Nat.sub].
  rewrite andb_true_r.
  destruct (Ascii.eqb "."%char c) eqn:E.
  - exact IH.
  - cbn [PyStr.mem]. rewrite E. exact IH.
Qed.

(** The keys the constructor and the parser build are upper-case and
    hold no period. *)
Lemma normalised_key (s : string) :
  let k := PyStr.upper (PyRe.sub_periods s) in
  PyStr.upper k = k /\ PyStr.mem "."%char k = false.
Proof.
  split; [apply upper_idem |].
  now rewrite upper_mem_period, sub_periods_no_period.
Qed.

Lemma normalised_counter (count : Z) (ys : list string) :
  let pos := Counter.of_keys (fun p => PyStr.upper (PyRe.sub_periods p)) count ys in
  NoDup (map fst pos)
  /\ forall k w, In (k, w) pos ->
       PyStr.upper k = k
       /\ PyStr.mem "."%char k = false
       /\ exists n, (1 <= n)%nat /\ w = (count * Z.of_nat n)%Z.
Proof.
  split; [apply of_keys_nodup |].
  intros k w Hin. apply of_keys_entry in Hin. destruct Hin as (Hk & Hw & Hn).
  apply in_map_iff in Hk. destruct Hk as [y [<- _]].
  destruct (normalised_key y) as [Hu Hp].
  split; [exact Hu | split; [exact Hp |]].
  eexists. split; [exact Hn | exact Hw].
Qed.

Section Construction.

Variable table : list (string * string).
Variable HumanName : string -> Person.ParsedName.
Variable re_last_hit : string -> string -> option (nat * nat).

Local Abbreviation parse_raw_name := (Person.parse_raw_name table HumanName re_last_hit).
Local Abbreviation init := (Person.init table HumanName re_last_hit).

Lemma parse_raw_name_positions_shape (fuel : nat) (name_raw : string) (count : Z)
    (extract_orgs : bool) (f m l : string) (pos : Counter.t) :
  parse_raw_name fuel name_raw count extract_orgs = Ok (f, m, l, pos) ->
  exists ys, pos = Counter.of_keys
                     (fun position => PyStr.upper (PyRe.sub_periods position))
                     count ys.
Proof.
  unfold Person.parse_raw_name.
  destruct (Person.parse_front name_raw) as [n ex].
  match goal with
  | |- bind ?r _ = _ -> _ => destruct r as [st | e |]
  end; cbn [bind]; intros H; try discriminate.
  apply parse_back_shape in H. tauto.
Qed.

(** X5.  Whenever [parse_raw_name] returns, the keys of the positions
    counter are distinct, upper-case and free of periods, and every
    weight is [count] times a positive number of mentions. *)
Theorem X5_parse_raw_name_positions (fuel : nat) (name_raw : string) (count : Z)
    (extract_orgs : bool) (f m l : string) (pos : Counter.t) :
  parse_raw_name fuel name_raw count extract_orgs = Ok (f, m, l, pos) ->
  NoDup (map fst pos)
  /\ forall k w, In (k, w) pos ->
       PyStr.upper k = k
       /\ PyStr.mem "."%char k = false
       /\ exists n, (1 <= n)%nat /\ w = (count * Z.of_nat n)%Z.
Proof.
  intros H. apply parse_raw_name_positions_shape in H. destruct H as [ys ->].
  apply normalised_counter.
Qed.

(** X6.  Every record the constructor returns, from a raw name or from
    explicit fields, has upper-case last, first and middle names and the
    count it was given. *)
Theorem X6_init_upper_case (fuel : nat) (name_raw : option string)
    (last first middle : string) (positions aliases : option Person.counter_arg)
    (count : Z) (docs_authored docs_received : option Person.docs_arg)
    (p : Person.t) :
  init fuel name_raw last first middle positions aliases count
    docs_authored docs_received = Ok p ->
  PyStr.upper (Person.last p) = Person.last p
  /\ PyStr.upper (Person.first p) = Person.first p
  /\ PyStr.upper (Person.middle p) = Person.middle p
  /\ Person.count p = count.
Proof.
  unfold Person.init. intros H.
  match type of H with
  | bind ?r _ = _ => destruct r as [[[[f m] l] sp] | e |]
  end; cbn [bind] in H; try discriminate.
  match type of H with
  | bind ?r _ = _ => destruct r as [da | e |]
  end; cbn [bind] in H; try discriminate.
  match type of H with
  | bind ?r _ = _ => destruct r as [dr | e |]
  end; cbn [bind] in H; try discriminate.
  injection H as <-. cbn. rewrite !upper_idem. tauto.
Qed.

(** X7.  With a [Counter] (of distinct keys) as [positions] and a raw
    name that parses, the record's positions hold, at every key, the
    sum of the explicit and the parsed weight when that sum is positive
    and nothing otherwise; when the parser extracted no position they
    are the explicit counter as given. *)
Theorem X7_init_counter_merge (fuel : nat) (raw last first middle : string)
    (c : Counter.t) (aliases : option Person.counter_arg) (count : Z)
    (docs_authored docs_received : option Person.docs_arg) (p : Person.t) :
  PyStr.truthy raw = true ->
  NoDup (map fst c) ->
  init fuel (Some raw) last first middle (Some (Person.ACounter c)) aliases count
    docs_authored docs_received = Ok p ->
  exists f m l pos_raw,
    parse_raw_name fuel raw count true = Ok (f, m, l, pos_raw)
    /\ (pos_raw = [] -> Person.positions p = c)
    /\ (pos_raw <> [] ->
        forall k, Counter.get k (Person.positions p)
                  = let s := (Counter.get k c + Counter.get k pos_raw)%Z in
                    if (0 <? s)%Z then s else 0%Z).
Proof.
  intros Hraw Hc. unfold Person.init. rewrite Hraw. intros H.
  destruct (parse_raw_name fuel raw count true) as [[[[f m] l] pos_raw] | e |] eqn:E;
    cbn [bind] in H; try discriminate.
  match type of H with
  | bind ?r _ = _ => destruct r as [da | e |]
  end; cbn [bind] in H; try discriminate.
  match type of H with
  | bind ?r _ = _ => destruct r as [dr | e |]
  end; cbn [bind] in H; try discriminate.
  injection H as <-. cbn [Person.positions].
  exists f, m, l, pos_raw. split; [reflexivity | split].
  - intros ->. reflexivity.
  - intros Hne k. destruct pos_raw as [| x rest]; [contradiction |].
    cbn [Counter.truthy]. apply counter_get_iadd; [exact Hc |].
    destruct (parse_raw_name_positions_shape _ _ _ _ _ _ _ _ E) as [ys ->].
    apply of_keys_nodup.
Qed.

End Construction.

Section ConstructionArguments.

Variable table : list (string * string).
Variable HumanName : string -> Person.ParsedName.
Variable re_last_hit : string -> string -> option (nat * nat).

Local Abbreviation init := (Person.init table HumanName re_last_hit).

(** X8.  With a plain collection as [positions], every record the
    constructor returns has positions with distinct, upper-case,
    period-free keys, and the weight at a key is [count] times the
    number of items of the collection that normalise to that key. *)
Theorem X8_init_iterable_weights (fuel : nat) (name_raw : option string)
    (last first middle : string) (xs : list string)
    (aliases : option Person.counter_arg) (count : Z)
    (docs_authored docs_received : option Person.docs_arg) (p : Person.t) :
  init fuel name_raw last first middle (Some (Person.AIterable xs)) aliases count
    docs_authored docs_received = Ok p ->
  NoDup (map fst (Person.positions p))
  /\ (forall k w, In (k, w) (Person.positions p) ->
        PyStr.upper k = k /\ PyStr.mem "."%char k = false)
  /\ forall k,
       Counter.get k (Person.positions p)
       = (count * Z.of_nat
            (count_occ string_dec
               (map (fun i => PyStr.upper (PyRe.sub_periods i)) xs) k))%Z.
Proof.
  unfold Person.init. intros H.
  match type of H with
  | bind ?r _ = _ => destruct r as [[[[f m] l] sp] | e |]
  end; cbn [bind] in H; try discriminate.
  match type of H with
  | bind ?r _ = _ => destruct r as [da | e |]
  end; cbn [bind] in H; try discriminate.
  match type of H with
  | bind ?r _ = _ => destruct r as [dr | e |]
  end; cbn [bind] in H; try discriminate.
  injection H as <-. cbn [Person.positions]. unfold Person.positions_of_iterable.
  destruct (normalised_counter count xs) as [Hnd Hkeys].
  split; [exact Hnd | split].
  - intros k w Hin. destruct (Hkeys k w Hin) as (Hu & Hp & _). tauto.
  - intros k. apply of_keys_get.
Qed.

(** X9.  Construction from explicit fields fails only on the document
    arguments: a truthy [docs_authored] that is not a set raises
    [ValueError]; failing that, a truthy [docs_received] that is not a
    set raises [ValueError]; otherwise a record is returned, and it
    carries a document set only where a non-empty set was given. *)
Theorem X9_init_docs_value_error (fuel : nat) (last first middle : string)
    (positions aliases : option Person.counter_arg) (count : Z)
    (docs_authored docs_received : option Person.docs_arg) :
  let r := init fuel None last first middle positions aliases count
             docs_authored docs_received in
  let kept (arg : option Person.docs_arg) :=
    match arg with
    | Some (Person.DSet (d :: ds)) => Some (d :: ds)
    | _ => None
    end in
  (docs_authored = Some (Person.DOther true) ->
   r = Raise (ValueError "docs_authored for Person object has to be a set."))
  /\ (docs_authored <> Some (Person.DOther true) ->
      docs_received = Some (Person.DOther true) ->
      r = Raise (ValueError "docs_received for Person object has to be a set."))
  /\ (docs_authored <> Some (Person.DOther true) ->
      docs_received <> Some (Person.DOther true) ->
      exists p, r = Ok p
                /\ Person.docs_authored p = kept docs_authored
                /\ Person.docs_received p = kept docs_received).
Proof.
  intros r kept. subst r. unfold Person.init. cbn [bind].
  split; [| split].
  - intros ->. reflexivity.
  - intros Ha ->.
    destruct docs_authored as [[[| d ds] | []] |]; try reflexivity.
    now contradiction Ha.
  - intros Ha Hr.
    destruct docs_authored as [[[| d ds] | []] |]; try (now contradiction Ha);
      destruct docs_received as [[[| e es] | []] |]; try (now contradiction Hr);
      cbn [Person.check_docs bind]; eexists; split; try reflexivity; split; reflexivity.
Qed.

End ConstructionArguments.

(* ================================================================== *)
(** * More on [most_likely_position] *)
(* ================================================================== *)

Lemma official_scan_provenance (table : list (string * string))
    (l : list (string * Z)) (r : string) :
  Person.official_scan table l = Some r ->
  r = Person.no_positions
  \/ exists position w,
       In (position, w) l
       /\ Person.clean_org_of table position = Some r
       /\ r <> Person.skip_sentinel.
Proof.
  induction l as [| [k w] rest IH]; simpl; intros H; [discriminate |].
  destruct (w =? 1)%Z; [injection H as <-; now left |].
  destruct (Person.clean_org_of table k) as [clean |] eqn:E.
  - destruct (String.eqb_spec clean Person.skip_sentinel) as [-> | Hne]; simpl in H.
    + destruct (IH H) as [-> | (p0 & w0 & Hin & Hc & Hs)]; [now left |].
      right. exists p0, w0. tauto.
    + injection H as <-. right. exists k, w. tauto.
  - destruct (IH H) as [-> | (p0 & w0 & Hin & Hc & Hs)]; [now left |].
    right. exists p0, w0. tauto.
Qed.

Lemma fallback_scan_provenance (table : list (string * string))
    (l : list (string * Z)) (r : string) :
  Person.fallback_scan table l = Some r ->
  exists position w,
    In (position, w) l
    /\ r = Person.indent44 ++ PyStr.upper position
    /\ (5 <= String.length position)%nat
    /\ Person.clean_org_of table position <> Some Person.skip_sentinel.
Proof.
  induction l as [| [k w] rest IH]; simpl; intros H; [discriminate |].
  assert (Hrest : Person.fallback_scan table rest = Some r ->
                  exists position w0,
                    ((k, w) = (position, w0) \/ In (position, w0) rest)
                    /\ r = Person.indent44 ++ PyStr.upper position
                    /\ (5 <= String.length position)%nat
                    /\ Person.clean_org_of table position <> Some Person.skip_sentinel).
  { intros H'. destruct (IH H') as (p0 & w0 & Hin & Hr); exists p0, w0. tauto. }
  destruct (Person.clean_org_of table k) as [clean |] eqn:E.
  - destruct (String.eqb_spec clean Person.skip_sentinel) as [-> | Hne];
      [now apply Hrest |].
    destruct (String.length k <? 5)%nat eqn:L; [now apply Hrest |].
    injection H as <-. apply Nat.ltb_ge in L. exists k, w.
    repeat split; auto. rewrite E. intros Heq. injection Heq as ->. contradiction.
  - destruct (String.length k <? 5)%nat eqn:L; [now apply Hrest |].
    injection H as <-. apply Nat.ltb_ge in L. exists k, w.
    repeat split; auto. rewrite E. discriminate.
Qed.

(** X10.  Whatever the positions, [most_likely_position] returns the
    literal ["no positions available"], or the table's canonical name
    (not the skip sentinel) of one of the record's positions, or 44
    blanks followed by the upper-cased text of one of the record's
    positions that has at least five characters and is not mapped to
    the sentinel; it never returns the sentinel itself. *)
Theorem X10_most_likely_position_provenance (table : list (string * string))
    (self : Person.t) :
  let r := Person.most_likely_position table self in
  (r = Person.no_positions
   \/ (exists position w,
         In (position, w) (Person.positions self)
         /\ Person.clean_org_of table position = Some r
         /\ r <> Person.skip_sentinel)
   \/ (exists position w,
         In (position, w) (Person.positions self)
         /\ r = Person.indent44 ++ PyStr.upper position
         /\ (5 <= String.length position)%nat
         /\ Person.clean_org_of table position <> Some Person.skip_sentinel))
  /\ r <> Person.skip_sentinel.
Proof.
  intros r.
  assert (Hprov :
    r = Person.no_positions
    \/ (exists position w,
          In (position, w) (Person.positions self)
          /\ Person.clean_org_of table position = Some r
          /\ r <> Person.skip_sentinel)
    \/ (exists position w,
          In (position, w) (Person.positions self)
          /\ r = Person.indent44 ++ PyStr.upper position
          /\ (5 <= String.length position)%nat
          /\ Person.clean_org_of table position <> Some Person.skip_sentinel)).
  { subst r. unfold Person.most_likely_position.
    destruct (Person.official_scan table (Counter.most_common (Person.positions self)))
      as [r0 |] eqn:E.
    - apply official_scan_provenance in E.
      destruct E as [-> | (p0 & w0 & Hin & Hc & Hs)]; [now left |].
      right. left. exists p0, w0. apply (proj1 (most_common_in _ _)) in Hin. tauto.
    - destruct (0 <? List.length (Person.positions self))%nat; [| now left].
      destruct (Person.fallback_scan table (Counter.most_common (Person.positions self)))
        as [r0 |] eqn:F; [| now left].
      apply fallback_scan_provenance in F.
      destruct F as (p0 & w0 & Hin & Hr & Hl & Hs).
      right. right. exists p0, w0. apply (proj1 (most_common_in _ _)) in Hin. tauto. }
  split; [exact Hprov |].
  destruct Hprov as [-> | [(p0 & w0 & _ & _ & Hs) | (p0 & w0 & _ & -> & _)]].
  - discriminate.
  - exact Hs.
  - discriminate.
Qed.

Lemma official_scan_cut_off (table : list (string * string)) (l : list (string * Z)) :
  (exists k, In (k, 1%Z) l) ->
  (forall k w, In (k, w) l -> w <> 1%Z ->
     Person.clean_org_of table k = None
     \/ Person.clean_org_of table k = Some Person.skip_sentinel) ->
  Person.official_scan table l = Some Person.no_positions.
Proof.
  induction l as [| [k w] rest IH]; intros [k1 Hin] Hun; [contradiction |].
  cbn [Person.official_scan].
  destruct (w =? 1)%Z eqn:E; [reflexivity |].
  apply Z.eqb_neq in E.
  assert (IH' : Person.official_scan table rest = Some Person.no_positions).
  { apply IH.
    - destruct Hin as [Heq | Hin]; [injection Heq as _ Hw; exfalso; apply E; exact Hw |].
      now exists k1.
    - intros k' w' Hin' Hw'. apply (Hun k' w'); [now right | exact Hw']. }
  destruct (Hun k w (or_introl eq_refl) E) as [-> | ->]; [exact IH' |].
  rewrite String.eqb_refl. exact IH'.
Qed.

(** X11.  When some position has weight exactly 1 and no position of
    another weight is an official organisation, the result is ["no
    positions available"]: heavier positions that the table does not
    know are not returned by the fallback. *)
Theorem X11_most_likely_position_cut_off (table : list (string * string))
    (self : Person.t) (k1 : string) :
  In (k1, 1%Z) (Person.positions self) ->
  (forall k w, In (k, w) (Person.positions self) -> w <> 1%Z ->
     Person.clean_org_of table k = None
     \/ Person.clean_org_of table k = Some Person.skip_sentinel) ->
  Person.most_likely_position table self = Person.no_positions.
Proof.
  intros Hin Hun. unfold Person.most_likely_position.
  rewrite official_scan_cut_off; [reflexivity | |].
  - exists k1. now apply most_common_in.
  - intros k w Hkw. apply (proj1 (most_common_in _ _)) in Hkw. now apply Hun.
Qed.

(* ================================================================== *)
(** * Termination of the extraction loop *)
(* ================================================================== *)

Lemma str_length_append (a b : string) :
  String.length (a ++ b) = (String.length a + String.length b)%nat.
Proof. induction a as [| c a' IH]; simpl; [reflexivity | now rewrite IH]. Qed.

Lemma length_take (n : nat) (s : string) :
  String.length (PyStr.take n s) = Nat.min n (String.length s).
Proof.
  revert s. induction n as [| n IH]; intros [| c s']; simpl; try reflexivity.
  now rewrite IH.
Qed.

Lemma length_drop (n : nat) (s : string) :
  String.length (PyStr.drop n s) = (String.length s - n)%nat.
Proof.
  revert s. induction n as [| n IH]; intros [| c s']; simpl; try reflexivity.
  apply IH.
Qed.

(** Cutting a non-empty span out of a string shortens it. *)
Lemma length_cut (s : string) (a b : nat) :
  (a < b)%nat -> (b <= String.length s)%nat ->
  (String.length (Person.cut s a b) < String.length s)%nat.
Proof.
  intros Hab Hb. unfold Person.cut.
  rewrite str_length_append, length_take, length_drop. lia.
Qed.

Section ExtractionLoop.

Variable HumanName : string -> Person.ParsedName.
Variable re_last_hit : string -> string -> option (nat * nat).

Local Abbreviation org_loop := (Person.org_loop HumanName re_last_hit).

(** X12.  For a table spelling of at least two characters whose hits
    are non-empty spans inside the string, the [while True] loop ends
    within as many rounds as the string has characters, plus one, with
    a string that is not longer than the one it started from. *)
Theorem X12_org_loop_terminates (raw_org clean_org : string) :
  (2 <= String.length raw_org)%nat ->
  (forall s a b, re_last_hit raw_org s = Some (a, b) ->
     (a < b)%nat /\ (b <= String.length s)%nat) ->
  forall (fuel : nat) (name_raw : string) (extracted_positions : list string),
    (String.length name_raw < fuel)%nat ->
    exists name_raw' extracted_positions',
      org_loop fuel raw_org clean_org name_raw extracted_positions
      = Ok (name_raw', extracted_positions')
      /\ (String.length name_raw' <= String.length name_raw)%nat.
Proof.
  intros Hlen Hspan. induction fuel as [| fuel IH]; intros name_raw ext Hfuel; [lia |].
  cbn [Person.org_loop].
  destruct (re_last_hit raw_org name_raw) as [[a b] |] eqn:Hhit.
  - destruct (Hspan _ _ _ Hhit) as [Hab Hb].
    pose proof (length_cut name_raw a b Hab Hb) as Hcut.
    destruct (3 <=? String.length raw_org)%nat eqn:E3.
    + match goal with
      | |- context [Person.org_loop _ _ fuel raw_org clean_org ?n ?e] =>
          destruct (IH n e) as (n' & e' & Hr & Hn); [lia |]
      end.
      exists n', e'. split; [exact Hr | lia].
    + destruct (String.length raw_org =? 2)%nat eqn:E2.
      * destruct (negb (PyStr.truthy (Person.hn_first (HumanName (Person.cut name_raw a b))))
                  && negb (PyStr.truthy (Person.hn_middle (HumanName (Person.cut name_raw a b)))))%bool.
        { exists name_raw, ext. split; [reflexivity | lia]. }
        destruct (negb (PyStr.truthy (Person.hn_last (HumanName (Person.cut name_raw a b))))).
        { exists name_raw, ext. split; [reflexivity | lia]. }
        destruct (IH (Person.cut name_raw a b) (ext ++ [clean_org])%list)
          as (n' & e' & Hr & Hn); [lia |].
        exists n', e'. split; [exact Hr | lia].
      * apply Nat.leb_gt in E3. apply Nat.eqb_neq in E2. lia.
  - exists name_raw, ext. split; [reflexivity | lia].
Qed.

(** X13.  For a table spelling of fewer than two characters that has a
    hit, neither branch of the loop body runs, the string never
    changes, and the loop does not end, whatever the fuel. *)
Theorem X13_org_loop_short_spelling_spins (raw_org clean_org name_raw : string)
    (extracted_positions : list string) (hit : nat * nat) :
  (String.length raw_org < 2)%nat ->
  re_last_hit raw_org name_raw = Some hit ->
  forall fuel,
    org_loop fuel raw_org clean_org name_raw extracted_positions = OutOfFuel.
Proof.
  intros Hlen Hhit. induction fuel as [| fuel IH]; [reflexivity |].
  cbn [Person.org_loop]. rewrite Hhit. destruct hit as [a b].
  destruct (3 <=? String.length raw_org)%nat eqn:E3; [apply Nat.leb_le in E3; lia |].
  destruct (String.length raw_org =? 2)%nat eqn:E2; [apply Nat.eqb_eq in E2; lia |].
  exact IH.
Qed.

End ExtractionLoop.

(** The sample whole-word search returns non-empty spans inside the
    string. *)
Lemma whole_word_go_span (raw : string) (prev : option ascii) (off skip : nat)
    (s : string) (a b : nat) :
  (1 <= String.length raw)%nat ->
  Sample.whole_word_go raw prev off skip s = Some (a, b) ->
  (off <= a)%nat /\ b = (a + String.length raw)%nat
  /\ (b <= off + String.length s)%nat.
Proof.
  intros Hraw. revert prev off skip.
  induction s as [| c rest IH]; intros prev off skip H; [discriminate |].
  cbn [Sample.whole_word_go] in H. destruct skip as [| k].
  - match type of H with
    | (if ?cond then _ else _) = _ => destruct cond eqn:Ec
    end.
    + destruct (Sample.whole_word_go raw (Some c) (S off) (String.length raw - 1) rest)
        as [later |] eqn:El.
      * injection H as ->. apply IH in El. simpl. lia.
      * injection H as <- <-.
        apply andb_true_iff in Ec. destruct Ec as [Ec _].
        apply andb_true_iff in Ec. destruct Ec as [Ec _].
        apply startswith_length in Ec. lia.
    + apply IH in H. simpl. lia.
  - apply IH in H. simpl. lia.
Qed.

(** X12, on the sample search for ["PM"] in ["TEMKO SL, PM"]. *)
Lemma X12_org_loop_terminates_witness :
  exists name_raw' extracted_positions',
    Person.org_loop Sample.split_name Sample.whole_word_hit 13 "PM" "Philip Morris"
      "TEMKO SL, PM" [] = Ok (name_raw', extracted_positions')
    /\ (String.length name_raw' <= String.length "TEMKO SL, PM")%nat.
Proof.
  apply (X12_org_loop_terminates Sample.split_name Sample.whole_word_hit
           "PM" "Philip Morris").
  - simpl. lia.
  - intros s a b H. unfold Sample.whole_word_hit in H.
    apply whole_word_go_span in H; [simpl in H; lia | simpl; lia].
  - simpl. lia.
Defined.

(** X13, on a one-letter spelling that occurs as a word. *)
Lemma X13_org_loop_short_spelling_spins_witness :
  Person.org_loop Sample.split_name Sample.whole_word_hit 1000 "X" "Malcolm X fund"
    "MALCOLM X" [] = OutOfFuel.
Proof.
  apply (X13_org_loop_short_spelling_spins Sample.split_name Sample.whole_word_hit
           "X" "Malcolm X fund" "MALCOLM X" [] (8, 9)%nat).
  - simpl. lia.
  - reflexivity.
Defined.

(* ================================================================== *)
(** * The resolver and its table *)
(* ================================================================== *)

Lemma filter_first_split {A : Type} (f : A -> bool) (l : list A) (x : A) (r : list A) :
  filter f l = x :: r ->
  exists pre post,
    l = (pre ++ x :: post)%list /\ filter f pre = [] /\ f x = true /\ r = filter f post.
Proof.
  induction l as [| y rest IH]; simpl; intros H; [discriminate |].
  destruct (f y) eqn:E.
  - injection H as -> <-. exists [], rest. simpl. tauto.
  - destruct (IH H) as (pre & post & -> & Hpre & Hx & Hr).
    exists (y :: pre), post. simpl. rewrite E. tauto.
Qed.

Lemma startswith_self_append (p a : string) : PyStr.startswith p (p ++ a) = true.
Proof.
  induction p as [| c p' IH]; simpl; [reflexivity |].
  now rewrite Ascii.eqb_refl, IH.
Qed.

Lemma startswith_append (p s t : string) :
  PyStr.startswith p s = true -> PyStr.startswith p (s ++ t) = true.
Proof.
  revert s. induction p as [| c p' IH]; intros [| d s'] H; simpl in *;
    try reflexivity; try discriminate.
  apply andb_true_iff in H. destruct H as [-> H]. simpl. now apply IH.
Qed.

Lemma contains_after_one (q s : string) (c : ascii) :
  PyStr.startswith q s = true -> PyStr.contains q (String c s) = true.
Proof.
  intros H. unfold PyStr.contains. rewrite find_index_unfold.
  destruct (PyStr.startswith q (String c s)); [reflexivity |].
  rewrite find_index_unfold, H. reflexivity.
Qed.

(** The JSON text of a one-alias counter holds the alias right after
    its opening quote, when no character of the alias needs an escape. *)
Lemma json_dumps_single_contains (k : string) (w : Z) :
  PyRepr.json_body k = k ->
  PyStr.contains (String PyRepr.dquote k) (Counter.json_dumps [(k, w)]) = true.
Proof.
  intros Hplain. unfold Counter.json_dumps, Counter.json_item, PyRepr.json_str.
  cbn [map PyStr.join fst snd]. rewrite Hplain.
  apply contains_after_one. cbn [append PyStr.startswith].
  rewrite Ascii.eqb_refl. cbn [andb].
  do 2 apply startswith_append. apply startswith_self_append.
Qed.

Section Resolver.

Variable table : list (string * string).
Variable HumanName : string -> Person.ParsedName.
Variable re_last_hit : string -> string -> option (nat * nat).

Local Abbreviation resolve := (Models.resolve table HumanName re_last_hit).

(** X14.  A resolution that returns leaves every existing row of the
    table as it was: either the table is unchanged and the returned row
    is one of its rows, with an alias text that contains the quoted
    upper-cased name, or no row matched and the table is the old one
    with the returned row appended, the new row's [full_name] being
    different from every old one. *)
Theorem X14_resolve_table_grows_by_at_most_one (fuel : nat) (name : string)
    (db db' : list Models.DjangoPerson) (person : Models.DjangoPerson)
    (msgs : list string) :
  resolve fuel name db = Ok (person, db', msgs) ->
  let q := String PyRepr.dquote (PyStr.upper name) in
  (db' = db /\ In person db /\ PyStr.contains q (Models.aliases person) = true)
  \/ (db' = (db ++ [person])%list
      /\ Models.filter_aliases_contains q db = []
      /\ msgs = []
      /\ forall row, In row db -> Models.full_name row <> Models.full_name person).
Proof.
  intros H. cbv zeta.
  unfold Models.resolve, Models.match_djangoperson_from_name in H.
  set (q := String PyRepr.dquote (PyStr.upper name)) in *.
  destruct (Models.filter_aliases_contains q db) as [| row [| row2 more]] eqn:F.
  - right.
    match type of H with
    | bind ?r _ = _ => destruct r as [po | e |]
    end; cbn [bind] in H; try discriminate.
    unfold Models.save in H.
    match type of H with
    | context [existsb ?g db] => destruct (existsb g db) eqn:Ex
    end; cbn [bind] in H; try discriminate.
    injection H as <- <- <-. repeat split.
    intros row Hrow Heq.
    assert (Hex : existsb
              (fun p => String.eqb (Models.full_name p)
                 (Person.first po ++ " " ++ Person.middle po ++ " " ++ Person.last po))
              db = true).
    { apply existsb_exists. exists row. split; [exact Hrow |].
      apply String.eqb_eq. exact Heq. }
    cbn [Models.full_name] in Ex. rewrite Ex in Hex. discriminate.
  - left. injection H as <- <- <-.
    assert (Hin : In row (Models.filter_aliases_contains q db))
      by (rewrite F; now left).
    apply filter_In in Hin. tauto.
  - left. injection H as <- <- <-.
    assert (Hin : In row (Models.filter_aliases_contains q db))
      by (rewrite F; now left).
    apply filter_In in Hin. tauto.
Qed.

(** X15.  When some row matches, resolution does not parse and does not
    raise, whatever the name and the fuel: it returns the first
    matching row in table order and the table unchanged, and it prints
    the ambiguity message exactly when a later row matches too. *)
Theorem X15_resolve_first_match (fuel : nat) (name : string)
    (pre post : list Models.DjangoPerson) (row : Models.DjangoPerson) :
  let q := String PyRepr.dquote (PyStr.upper name) in
  Models.filter_aliases_contains q pre = [] ->
  PyStr.contains q (Models.aliases row) = true ->
  resolve fuel name (pre ++ row :: post)
  = Ok (row, (pre ++ row :: post)%list,
        match Models.filter_aliases_contains q post with
        | [] => []
        | _ :: _ => [Models.multiple_message]
        end).
Proof.
  intros q Hpre Hrow.
  unfold Models.resolve, Models.match_djangoperson_from_name. fold q.
  unfold Models.filter_aliases_contains in *.
  rewrite filter_app, Hpre. cbn [filter app]. rewrite Hrow.
  destruct (filter (fun p => PyStr.contains q (Models.aliases p)) post); reflexivity.
Qed.

(** X16.  Lookup after insert: when resolution of a name whose
    upper-cased text needs no JSON escape created a row, resolving the
    same name against the new table returns that row and creates
    nothing. *)
Theorem X16_resolve_twice (fuel fuel' : nat) (name : string)
    (db db' : list Models.DjangoPerson) (person : Models.DjangoPerson)
    (msgs : list string) :
  PyRepr.json_body (PyStr.upper name) = PyStr.upper name ->
  Models.filter_aliases_contains (String PyRepr.dquote (PyStr.upper name)) db = [] ->
  resolve fuel name db = Ok (person, db', msgs) ->
  resolve fuel' name db' = Ok (person, db', []).
Proof.
  intros Hplain Hnone H.
  unfold Models.resolve, Models.match_djangoperson_from_name in H.
  rewrite Hnone in H.
  match type of H with
  | bind ?r _ = _ => destruct r as [po | e |] eqn:Hinit
  end; cbn [bind] in H; try discriminate.
  unfold Models.save in H.
  match type of H with
  | context [existsb ?g db] => destruct (existsb g db)
  end; cbn [bind] in H; try discriminate.
  injection H as <- <- <-.
  apply init_default_aliases in Hinit. rewrite Hinit, upper_idem.
  unfold Models.resolve, Models.match_djangoperson_from_name.
  unfold Models.filter_aliases_contains in *.
  rewrite filter_app, Hnone. cbn [filter app Models.aliases].
  rewrite (json_dumps_single_contains _ 1 Hplain). reflexivity.
Qed.

End Resolver.

(** X14, on the creation of a row for ["Dunn, WL"] in an empty table. *)
Lemma X14_resolve_table_grows_by_at_most_one_witness :
  exists person,
    Sample.resolve 1 "Dunn, WL" [] = Ok (person, [person], [])
    /\ Models.aliases person = Counter.json_dumps [("DUNN, WL", 1%Z)].
Proof.
  destruct (Sample.resolve 1 "Dunn, WL" []) as [[[person db'] msgs] | e |] eqn:E;
    try (vm_compute in E; discriminate E).
  destruct (X14_resolve_table_grows_by_at_most_one Sample.table Sample.split_name
              Sample.whole_word_hit 1 "Dunn, WL" [] db' person msgs E)
    as [(_ & [] & _) | (-> & _ & -> & _)].
  exists person. split; [reflexivity |].
  vm_compute in E. injection E as <-. reflexivity.
Defined.

(** X15, on a table whose two rows both carry an alias that starts
    with the name. *)
Lemma X15_resolve_first_match_witness :
  let row1 := Models.mkDjangoPerson "DUNN" "W" "L" "W L DUNN" "no positions available"
                "{}" (Counter.json_dumps [("DUNN, WL", 1%Z)]) 1 in
  let row2 := Models.mkDjangoPerson "DUNN" "WILLIAM" "L" "WILLIAM L DUNN"
                "no positions available" "{}"
                (Counter.json_dumps [("DUNN, WL, PHILIP MORRIS", 1%Z)]) 1 in
  Sample.resolve 0 "Dunn, WL" [row1; row2] = Ok (row1, [row1; row2], [Models.multiple_message]).
Proof.
  intros row1 row2.
  exact (X15_resolve_first_match Sample.table Sample.split_name Sample.whole_word_hit
           0 "Dunn, WL" [] [row2] row1 eq_refl eq_refl).
Defined.

(** X16, on ["Dunn, WL"] resolved twice from an empty table. *)
Lemma X16_resolve_twice_witness :
  exists person db' msgs,
    Sample.resolve 1 "Dunn, WL" [] = Ok (person, db', msgs)
    /\ Sample.resolve 0 "Dunn, WL" db' = Ok (person, db', []).
Proof.
  destruct (Sample.resolve 1 "Dunn, WL" []) as [[[person db'] msgs] | e |] eqn:E;
    try (vm_compute in E; discriminate E).
  exists person, db', msgs. split; [reflexivity |].
  exact (X16_resolve_twice Sample.table Sample.split_name Sample.whole_word_hit
           1 0 "Dunn, WL" [] db' person msgs eq_refl eq_refl E).
Defined.

(* ================================================================== *)
(** * Ordering, validity, rendering and equality of records *)
(* ================================================================== *)

Lemma nat_of_ascii_inj (a b : ascii) : nat_of_ascii a = nat_of_ascii b -> a = b.
Proof.
  intros H. rewrite <- (ascii_nat_embedding a), <- (ascii_nat_embedding b).
  now rewrite H.
Qed.

Lemma ltb_cons (x y : ascii) (a b : string) :
  PyStr.ltb (String x a) (String y b) = true
  <-> (nat_of_ascii x < nat_of_ascii y)%nat
      \/ (nat_of_ascii x = nat_of_ascii y /\ PyStr.ltb a b = true).
Proof.
  cbn [PyStr.ltb].
  destruct (nat_of_ascii x <? nat_of_ascii y)%nat eqn:E1.
  - apply Nat.ltb_lt in E1. tauto.
  - apply Nat.ltb_ge in E1.
    destruct (nat_of_ascii y <? nat_of_ascii x)%nat eqn:E2.
    + apply Nat.ltb_lt in E2. split; [discriminate | lia].
    + apply Nat.ltb_ge in E2.
      split; [intros H; right; split; [lia | exact H] | intros [H | [_ H]]; [lia | exact H]].
Qed.

Lemma ltb_irrefl (a : string) : PyStr.ltb a a = false.
Proof.
  induction a as [| x a' IH]; [reflexivity |].
  destruct (PyStr.ltb (String x a') (String x a')) eqn:E; [| reflexivity].
  apply ltb_cons in E. destruct E as [E | [_ E]]; [lia | congruence].
Qed.

Lemma ltb_trans (a b c : string) :
  PyStr.ltb a b = true -> PyStr.ltb b c = true -> PyStr.ltb a c = true.
Proof.
  revert b c. induction a as [| x a' IH]; intros [| y b'] [| z c'] H1 H2;
    try discriminate; try reflexivity.
  apply ltb_cons in H1. apply ltb_cons in H2. apply ltb_cons.
  destruct H1 as [H1 | [H1 H1']], H2 as [H2 | [H2 H2']]; try (left; lia).
  right. split; [lia | now apply (IH b' c')].
Qed.

Lemma ltb_total (a b : string) :
  PyStr.ltb a b = false -> PyStr.ltb b a = false -> a = b.
Proof.
  revert b. induction a as [| x a' IH]; intros [| y b'] H1 H2;
    try discriminate; [reflexivity |].
  cbn [PyStr.ltb] in H1, H2.
  destruct (nat_of_ascii x <? nat_of_ascii y)%nat eqn:E1; [discriminate |].
  destruct (nat_of_ascii y <? nat_of_ascii x)%nat eqn:E2; [discriminate |].
  apply Nat.ltb_ge in E1. apply Nat.ltb_ge in E2.
  assert (x = y) by (apply nat_of_ascii_inj; lia). subst y.
  f_equal. now apply IH.
Qed.

(** X17.  [__lt__] is a strict order on the stemmed keys: no record is
    below itself, the relation is transitive, and two records of which
    neither is below the other have the same stemmed key. *)
Theorem X17_lt_strict_order_on_stemmed (p q r : Person.t) :
  Person.lt p p = false
  /\ (Person.lt p q = true -> Person.lt q r = true -> Person.lt p r = true)
  /\ (Person.lt p q = true -> Person.lt q p = false)
  /\ (Person.lt p q = false -> Person.lt q p = false ->
      Person.stemmed p = Person.stemmed q).
Proof.
  unfold Person.lt. split; [apply ltb_irrefl | split; [apply ltb_trans | split]].
  - intros H. destruct (PyStr.ltb (Person.stemmed q) (Person.stemmed p)) eqn:E;
      [| reflexivity].
    pose proof (ltb_trans _ _ _ H E) as Hpp. rewrite ltb_irrefl in Hpp. discriminate.
  - apply ltb_total.
Qed.

Lemma span_len_all (f : ascii -> bool) (s : string) :
  forallb f (list_ascii_of_string s) = true -> PyRe.span_len f s = String.length s.
Proof.
  induction s as [| c rest IH]; simpl; [reflexivity |].
  intros H. apply andb_true_iff in H. destruct H as [-> H]. now rewrite IH.
Qed.

Lemma drop_all (s : string) : PyStr.drop (String.length s) s = EmptyString.
Proof. induction s as [| c rest IH]; simpl; [reflexivity | exact IH]. Qed.

Lemma match_letters_all (s : string) :
  s <> EmptyString ->
  forallb PyStr.is_alpha (list_ascii_of_string s) = true ->
  PyRe.match_letters s = true.
Proof.
  intros Hne Hall. unfold PyRe.match_letters.
  rewrite (span_len_all _ _ Hall), drop_all.
  destruct s; [contradiction | reflexivity].
Qed.

Lemma match_letters_nonempty (s : string) :
  PyRe.match_letters s = true -> s <> EmptyString.
Proof. intros H ->. discriminate. Qed.

(** X18.  A record looks valid only if its last and its first name are
    not empty; and it does look valid when last and first name are
    non-empty runs of ASCII letters and the middle name is empty or
    such a run. *)
Theorem X18_looks_valid_needs_names (self : Person.t) :
  (Person.check_if_this_person_looks_valid self = true ->
   Person.last self <> EmptyString /\ Person.first self <> EmptyString)
  /\
  (Person.last self <> EmptyString ->
   forallb PyStr.is_alpha (list_ascii_of_string (Person.last self)) = true ->
   Person.first self <> EmptyString ->
   forallb PyStr.is_alpha (list_ascii_of_string (Person.first self)) = true ->
   forallb PyStr.is_alpha (list_ascii_of_string (Person.middle self)) = true ->
   Person.check_if_this_person_looks_valid self = true).
Proof.
  unfold Person.check_if_this_person_looks_valid. split.
  - intros H.
    destruct (PyRe.match_letters (Person.last self)) eqn:El; [| discriminate].
    destruct (PyRe.match_letters (Person.first self)) eqn:Ef; [| discriminate].
    split; now apply match_letters_nonempty.
  - intros Hl Hal Hf Haf Ham.
    rewrite (match_letters_all _ Hl Hal), (match_letters_all _ Hf Haf). cbn [negb orb].
    destruct (Person.middle self) as [| c m] eqn:Em; [reflexivity |].
    rewrite (match_letters_all (String c m)); [reflexivity | discriminate | exact Ham].
Qed.

(** X18, on the first case of the source's own test. *)
Lemma X18_looks_valid_needs_names_witness :
  Person.check_if_this_person_looks_valid (Person.of_names "PEPPLES" "" "E") = true.
Proof.
  apply (proj2 (X18_looks_valid_needs_names (Person.of_names "PEPPLES" "" "E")));
    try reflexivity; discriminate.
Defined.

Lemma str_append_assoc (a b c : string) : (a ++ b) ++ c = a ++ b ++ c.
Proof. induction a as [| x a' IH]; simpl; [reflexivity | now rewrite IH]. Qed.

Lemma upper_append (a b : string) :
  PyStr.upper (a ++ b) = PyStr.upper a ++ PyStr.upper b.
Proof. induction a as [| x a' IH]; simpl; [reflexivity | now rewrite IH]. Qed.

Lemma upper_length (s : string) : String.length (PyStr.upper s) = String.length s.
Proof. induction s as [| x s' IH]; simpl; [reflexivity | now rewrite IH]. Qed.

(** X19.  Equality does not keep the name fields apart: a record built
    with last name [a b] and first name [c] and a record built with
    last name [a] and first name [b c] have different last names, and
    they compare equal and hash equally under every hash function. *)
Theorem X19_eq_blind_to_field_boundary (table : list (string * string))
    (HumanName : string -> Person.ParsedName)
    (re_last_hit : string -> string -> option (nat * nat))
    (hash : string -> Z) (fuel : nat) (a b c middle : string)
    (positions aliases : option Person.counter_arg) (count : Z) :
  exists p q,
    Person.init table HumanName re_last_hit fuel None (a ++ " " ++ b) c middle
      positions aliases count None None = Ok p
    /\ Person.init table HumanName re_last_hit fuel None a (b ++ " " ++ c) middle
         positions aliases count None None = Ok q
    /\ Person.last p <> Person.last q
    /\ Person.eq hash p q = true
    /\ Person.hash_ hash p = Person.hash_ hash q.
Proof.
  rewrite !init_explicit_fields. eexists. eexists.
  split; [reflexivity | split; [reflexivity |]].
  cbn [Person.last].
  assert (Ht : forall pos al,
    Person.hash_text
      (Person.mk (PyStr.upper (a ++ " " ++ b)) (PyStr.upper c) (PyStr.upper middle)
         pos al count None None)
    = Person.hash_text
        (Person.mk (PyStr.upper a) (PyStr.upper (b ++ " " ++ c)) (PyStr.upper middle)
           pos al count None None)).
  { intros pos al. unfold Person.hash_text.
    cbn [Person.last Person.first Person.middle Person.positions Person.aliases].
    rewrite !upper_append, !str_append_assoc. reflexivity. }
  split; [| unfold Person.eq, Person.hash_; rewrite Ht;
            split; [apply Z.eqb_refl | reflexivity]].
  intros Heq. apply (f_equal String.length) in Heq.
  rewrite !upper_length, !str_length_append in Heq. simpl in Heq. lia.
Qed.

(* ================================================================== *)
(** * The further properties on the sample collaborators *)
(* ================================================================== *)

(** X4, on ["Dunn, William Lee"]. *)
Lemma X4_parse_raw_name_capitalized_witness :
  Sample.parse_raw_name 3 "dunn, william LEE" 1 true = Ok ("William", "Lee", "Dunn", [])
  /\ PyStr.capitalize "William" = "William"
  /\ PyStr.capitalize "Lee" = "Lee"
  /\ PyStr.capitalize "Dunn" = "Dunn".
Proof.
  assert (H : Sample.parse_raw_name 3 "dunn, william LEE" 1 true
              = Ok ("William", "Lee", "Dunn", [])) by (vm_compute; reflexivity).
  split; [exact H |].
  exact (X4_parse_raw_name_capitalized Sample.table Sample.split_name
           Sample.whole_word_hit 3 "dunn, william LEE" 1 true _ _ _ _ H).
Defined.

(** X5, on a raw name with a dash-delimited position, parsed with
    count 3. *)
Lemma X5_parse_raw_name_positions_witness :
  let pos := [("NATIONAL ASSOCIATION OF ATTYS GEN", 3%Z)] in
  Sample.parse_raw_name 3 "BAKER, T E - National Association of Attys. Gen." 3 true
  = Ok ("T", "E", "Baker", pos)
  /\ NoDup (map fst pos)
  /\ forall k w, In (k, w) pos ->
       PyStr.upper k = k
       /\ PyStr.mem "."%char k = false
       /\ exists n, (1 <= n)%nat /\ w = (3 * Z.of_nat n)%Z.
Proof.
  intros pos.
  assert (H : Sample.parse_raw_name 3
                "BAKER, T E - National Association of Attys. Gen." 3 true
              = Ok ("T", "E", "Baker", pos)) by (vm_compute; reflexivity).
  split; [exact H |].
  exact (X5_parse_raw_name_positions Sample.table Sample.split_name
           Sample.whole_word_hit 3 _ 3 true _ _ _ _ H).
Defined.

(** X6, on a record built from a lower-case raw name. *)
Lemma X6_init_upper_case_witness :
  exists p,
    Sample.init 3 (Some "dunn, william lee") EmptyString EmptyString EmptyString
      None None 2 None None = Ok p
    /\ PyStr.upper (Person.last p) = Person.last p
    /\ PyStr.upper (Person.first p) = Person.first p
    /\ PyStr.upper (Person.middle p) = Person.middle p
    /\ Person.count p = 2%Z.
Proof.
  destruct (Sample.init 3 (Some "dunn, william lee") EmptyString EmptyString
              EmptyString None None 2 None None) as [p | e |] eqn:E;
    try (vm_compute in E; discriminate E).
  unfold Sample.init in E.
  exists p. split; [reflexivity |].
  exact (X6_init_upper_case Sample.table Sample.split_name Sample.whole_word_hit
           3 _ _ _ _ _ _ 2 _ _ p E).
Defined.

(** X7, on an explicit counter that already holds the parsed position
    once. *)
Lemma X7_init_counter_merge_witness :
  exists p,
    Sample.init 3 (Some "TEMKO SL, COVINGTON AND BURLING")
      EmptyString EmptyString EmptyString
      (Some (Person.ACounter [("PHD", 1%Z); ("COVINGTON & BURLING", 1%Z)])) None 2
      None None = Ok p
    /\ Counter.get "COVINGTON & BURLING" (Person.positions p) = 3%Z
    /\ Counter.get "PHD" (Person.positions p) = 1%Z.
Proof.
  destruct (Sample.init 3 (Some "TEMKO SL, COVINGTON AND BURLING")
              EmptyString EmptyString EmptyString
              (Some (Person.ACounter [("PHD", 1%Z); ("COVINGTON & BURLING", 1%Z)]))
              None 2 None None) as [p | e |] eqn:E;
    try (vm_compute in E; discriminate E).
  unfold Sample.init in E.
  exists p.
  assert (Hnd : NoDup (map fst [("PHD", 1%Z); ("COVINGTON & BURLING", 1%Z)])).
  { repeat constructor; simpl; intuition discriminate. }
  destruct (X7_init_counter_merge Sample.table Sample.split_name Sample.whole_word_hit
              3 "TEMKO SL, COVINGTON AND BURLING" EmptyString EmptyString EmptyString
              [("PHD", 1%Z); ("COVINGTON & BURLING", 1%Z)] None 2 None None p
              eq_refl Hnd E)
    as (f & m & l & pos_raw & Hparse & _ & Hsum).
  assert (Hpos : pos_raw = [("COVINGTON & BURLING", 2%Z)]).
  { vm_compute in Hparse. now injection Hparse as _ _ _ <-. }
  subst pos_raw.
  split; [reflexivity | split].
  - rewrite Hsum by discriminate. reflexivity.
  - rewrite Hsum by discriminate. reflexivity.
Defined.

(** X8, on a list that spells one position in two ways. *)
Lemma X8_init_iterable_weights_witness :
  exists p,
    Sample.init 0 None "Teague" "C" "E"
      (Some (Person.AIterable ["Ph.D."; "phd"; "Jr."])) None 2 None None = Ok p
    /\ Counter.get "PHD" (Person.positions p) = 4%Z
    /\ Counter.get "JR" (Person.positions p) = 2%Z.
Proof.
  destruct (Sample.init 0 None "Teague" "C" "E"
              (Some (Person.AIterable ["Ph.D."; "phd"; "Jr."])) None 2 None None)
    as [p | e |] eqn:E; try (vm_compute in E; discriminate E).
  unfold Sample.init in E.
  exists p. split; [reflexivity |].
  destruct (X8_init_iterable_weights Sample.table Sample.split_name
              Sample.whole_word_hit 0 _ _ _ _ _ _ 2 _ _ p E) as (_ & _ & Hget).
  split; rewrite Hget; reflexivity.
Defined.

(** X11, on a heavier position the table does not know and an official
    one mentioned once. *)
Lemma X11_most_likely_position_cut_off_witness :
  Person.most_likely_position Sample.table
    (Person.mk "DUNN" "W" "L" [("PM", 1%Z); ("RJR TOBACCO", 3%Z)] [] 4 None None)
  = "no positions available".
Proof.
  apply (X11_most_likely_position_cut_off Sample.table _ "PM").
  - simpl. left. reflexivity.
  - simpl. intros k w [H | [H | []]] Hw; injection H as <- <-.
    + contradiction.
    + left. reflexivity.
Defined.

(* ================================================================== *)
(** * Rendering and the extractor without a hit *)
(* ================================================================== *)

Lemma join_cons_nonempty (sep : string) (c : ascii) (x : string) (l : list string) :
  PyStr.join sep (String c x :: l) <> EmptyString.
Proof. destruct l; simpl; discriminate. Qed.

(** X20.  [full_name] is the empty string exactly when the first, the
    middle and the last name are all empty. *)
Theorem X20_full_name_empty_iff (self : Person.t) :
  Person.full_name self = EmptyString
  <-> Person.first self = EmptyString
      /\ Person.middle self = EmptyString
      /\ Person.last self = EmptyString.
Proof.
  unfold Person.full_name. split.
  - intros H.
    destruct (Person.first self) as [| a f].
    + destruct (Person.middle self) as [| b m].
      * destruct (Person.last self) as [| c l]; [tauto |].
        exfalso. revert H. cbn [PyStr.truthy app PyStr.capitalize].
        apply join_cons_nonempty.
      * exfalso. revert H. cbn [PyStr.truthy app].
        destruct (String.length (String b m) =? 1)%nat;
          cbn [app append PyStr.capitalize]; apply join_cons_nonempty.
    + exfalso. revert H. cbn [PyStr.truthy].
      destruct (String.length (String a f) =? 1)%nat;
        cbn [app append PyStr.capitalize]; apply join_cons_nonempty.
  - intros (-> & -> & ->). reflexivity.
Qed.

Lemma rstrip_cons (chars : string) (c : ascii) (t : string) :
  PyStr.rstrip chars (String c t)
  = match PyStr.rstrip chars t with
    | EmptyString => if PyStr.mem c chars then EmptyString else String c EmptyString
    | String d r => String c (String d r)
    end.
Proof. reflexivity. Qed.

Lemma rstrip_idem (chars s : string) :
  PyStr.rstrip chars (PyStr.rstrip chars s) = PyStr.rstrip chars s.
Proof.
  induction s as [| c rest IH]; [reflexivity |].
  rewrite rstrip_cons.
  destruct (PyStr.rstrip chars rest) as [| d r] eqn:E.
  - destruct (PyStr.mem c chars) eqn:M; [reflexivity |].
    rewrite rstrip_cons. cbn [PyStr.rstrip]. now rewrite M.
  - rewrite rstrip_cons, IH. reflexivity.
Qed.

Lemma lstrip_head (chars s : string) :
  match PyStr.lstrip chars s with
  | EmptyString => True
  | String c _ => PyStr.mem c chars = false
  end.
Proof.
  induction s as [| c rest IH]; simpl; [exact I |].
  destruct (PyStr.mem c chars) eqn:M; [exact IH | exact M].
Qed.

Lemma lstrip_rstrip (chars t : string) :
  match t with
  | EmptyString => True
  | String c _ => PyStr.mem c chars = false
  end ->
  PyStr.lstrip chars (PyStr.rstrip chars t) = PyStr.rstrip chars t.
Proof.
  destruct t as [| c rest]; intros H; [reflexivity |].
  rewrite rstrip_cons.
  destruct (PyStr.rstrip chars rest) as [| d r]; rewrite ?H;
    cbn [PyStr.lstrip]; now rewrite H.
Qed.

Lemma strip_idem (chars s : string) :
  PyStr.strip chars (PyStr.strip chars s) = PyStr.strip chars s.
Proof.
  unfold PyStr.strip.
  rewrite (lstrip_rstrip chars (PyStr.lstrip chars s) (lstrip_head chars s)).
  apply rstrip_idem.
Qed.

Section ExtractorWithoutHit.

Variable table : list (string * string).
Variable HumanName : string -> Person.ParsedName.
Variable re_last_hit : string -> string -> option (nat * nat).

Local Abbreviation extract_raw_org_names_from_name :=
  (Person.extract_raw_org_names_from_name table HumanName re_last_hit).

(** X21.  When no spelling of the table hits the string and the
    trimmed string has no trailing comma clause, the extractor records
    no position: it returns the string trimmed of commas and blanks, or
    it raises [IndexError] from the validity test of a residue too
    short to index. *)
Lemma org_table_loop_no_listed_hit (fuel : nat) (tbl : list (string * string))
    (name_raw : string) (extracted_positions : list string) :
  (forall raw_org clean_org, In (raw_org, clean_org) tbl ->
     re_last_hit raw_org name_raw = None) ->
  Person.org_table_loop HumanName re_last_hit (S fuel) tbl name_raw extracted_positions
  = Ok (name_raw, extracted_positions).
Proof.
  induction tbl as [| [raw_org clean_org] rest IH]; intros Hno; [reflexivity |].
  cbn [Person.org_table_loop Person.org_loop].
  rewrite (Hno raw_org clean_org (or_introl eq_refl)). cbn [bind fst snd].
  apply IH. intros r c Hin. apply (Hno r c). now right.
Qed.

Theorem X21_extract_without_hit (fuel : nat) (name_raw : string) :
  (forall raw_org clean_org, In (raw_org, clean_org) table ->
     re_last_hit raw_org name_raw = None) ->
  PyRe.search_comma_tail (PyStr.strip ", " name_raw) = None ->
  extract_raw_org_names_from_name (S fuel) name_raw
  = Ok (PyStr.strip ", " name_raw, [])
  \/ extract_raw_org_names_from_name (S fuel) name_raw = Raise IndexError.
Proof.
  intros Hno Htail. unfold Person.extract_raw_org_names_from_name.
  rewrite (org_table_loop_no_listed_hit fuel table name_raw [] Hno).
  cbn [bind fst snd]. rewrite Htail.
  destruct (0 <? String.length (PyStr.strip ", " name_raw))%nat.
  - unfold Person.parse_raw_name_plain.
    destruct (Person.parse_front (PyStr.strip ", " name_raw)) as [n ex].
    destruct (Nat.lt_ge_cases (String.length (PyStr.strip " #" n)) 2) as [L | G].
    + right. rewrite (proj1 (parse_back_outcome table HumanName n ex 0) L). reflexivity.
    + left. destruct (proj2 (parse_back_outcome table HumanName n ex 0) G)
        as [[[[f m] l] pos] ->].
      cbn [bind].
      destruct (negb (Person.check_if_this_person_looks_valid (Person.of_names l m f)));
        cbn [bind fst snd]; now rewrite strip_idem.
  - left. cbn [bind fst snd]. now rewrite strip_idem.
Qed.

End ExtractorWithoutHit.

(** X21, on a name that holds none of the sample table's spellings. *)
Lemma X21_extract_without_hit_witness :
  Person.extract_raw_org_names_from_name Sample.table Sample.split_name
    Sample.whole_word_hit 1 " TEMKO SL, " = Ok ("TEMKO SL", [])
  \/ Person.extract_raw_org_names_from_name Sample.table Sample.split_name
       Sample.whole_word_hit 1 " TEMKO SL, " = Raise IndexError.
Proof.
  apply (X21_extract_without_hit Sample.table Sample.split_name
           Sample.whole_word_hit 0 " TEMKO SL, ").
  - intros raw_org clean_org Hin. simpl in Hin.
    destruct Hin as [H | [H | [H | [H | []]]]]; injection H as <- _; reflexivity.
  - reflexivity.
Defined.

(* ================================================================== *)
(** * The loop for a spelling of two characters, from entry to return *)
(* ================================================================== *)

Section TwoLetterLoop.

Variable HumanName : string -> Person.ParsedName.
Variable re_last_hit : string -> string -> option (nat * nat).

Local Abbreviation org_loop := (Person.org_loop HumanName re_last_hit).
Local Abbreviation removals := (Spec.removals HumanName re_last_hit).
Local Abbreviation stopped := (Spec.stopped HumanName re_last_hit).

(** The two tests of the loop body decide [Spec.false_positive]. *)
Lemma false_positive_tests (name : Person.ParsedName) :
  (if (negb (PyStr.truthy (Person.hn_first name))
       && negb (PyStr.truthy (Person.hn_middle name)))%bool
   then true
   else negb (PyStr.truthy (Person.hn_last name))) = true
  <-> Spec.false_positive name.
Proof.
  unfold Spec.false_positive.
  destruct (Person.hn_first name) as [| a f], (Person.hn_middle name) as [| b m],
    (Person.hn_last name) as [| c l]; cbn [PyStr.truthy negb andb];
    split; intros H; try reflexivity; try tauto; try discriminate;
    destruct H as [[H1 H2] | H]; discriminate.
Qed.

(** One round with a hit, for a spelling of two characters. *)
Lemma org_loop_two_letter_round (fuel : nat) (raw_org clean_org name_raw : string)
    (extracted_positions : list string) (a b : nat) :
  String.length raw_org = 2%nat ->
  re_last_hit raw_org name_raw = Some (a, b) ->
  org_loop (S fuel) raw_org clean_org name_raw extracted_positions
  = if (if (negb (PyStr.truthy (Person.hn_first (HumanName (Person.cut name_raw a b))))
            && negb (PyStr.truthy (Person.hn_middle (HumanName (Person.cut name_raw a b)))))%bool
        then true
        else negb (PyStr.truthy (Person.hn_last (HumanName (Person.cut name_raw a b)))))
    then Ok (name_raw, extracted_positions)
    else org_loop fuel raw_org clean_org (Person.cut name_raw a b)
           (extracted_positions ++ [clean_org])%list.
Proof.
  intros Hlen Hhit. cbn [Person.org_loop]. rewrite Hhit, Hlen.
  change (3 <=? 2)%nat with false. change (2 =? 2)%nat with true. cbv iota.
  destruct (negb (PyStr.truthy (Person.hn_first (HumanName (Person.cut name_raw a b))))
            && negb (PyStr.truthy (Person.hn_middle (HumanName (Person.cut name_raw a b)))))%bool;
    [reflexivity |].
  destruct (negb (PyStr.truthy (Person.hn_last (HumanName (Person.cut name_raw a b)))));
    reflexivity.
Qed.

(** Whatever the loop returns is the string after some number of
    accepted removals, with the canonical organisation recorded once
    per removal after the positions it was given, at a string where no
    match remains or the last match is a false positive. *)
Lemma org_loop_two_letter_post (raw_org clean_org : string) :
  String.length raw_org = 2%nat ->
  forall (fuel : nat) (name_raw : string) (extracted_positions : list string)
         (name_raw' : string) (extracted_positions' : list string),
    org_loop fuel raw_org clean_org name_raw extracted_positions
    = Ok (name_raw', extracted_positions') ->
    exists n,
      removals raw_org n name_raw name_raw'
      /\ extracted_positions' = (extracted_positions ++ repeat clean_org n)%list
      /\ stopped raw_org name_raw'.
Proof.
  intros Hlen. induction fuel as [| fuel IH]; intros name_raw ext name_raw' ext' H;
    [discriminate |].
  destruct (re_last_hit raw_org name_raw) as [[a b] |] eqn:Hhit.
  - rewrite (org_loop_two_letter_round fuel _ clean_org _ ext a b Hlen Hhit) in H.
    match type of H with
    | (if ?t then _ else _) = _ => destruct t eqn:Et
    end.
    + injection H as <- <-. exists O. split; [constructor | split].
      * cbn [repeat]. now rewrite app_nil_r.
      * right. exists a, b. split; [exact Hhit |]. now apply false_positive_tests.
    + apply IH in H. destruct H as (n & Hrem & Hext & Hstop).
      exists (S n). split; [| split; [| exact Hstop]].
      * apply (Spec.removals_step _ _ _ n name_raw name_raw' a b Hhit); [| exact Hrem].
        intros Hfp. apply false_positive_tests in Hfp. congruence.
      * rewrite Hext, <- app_assoc. reflexivity.
  - cbn [Person.org_loop] in H. rewrite Hhit in H. injection H as <- <-.
    exists O. split; [constructor | split].
    + cbn [repeat]. now rewrite app_nil_r.
    + left. exact Hhit.
Qed.

(** With hits that are non-empty spans inside the string, the loop
    returns within one round more than the string has characters. *)
Lemma org_loop_two_letter_returns (raw_org clean_org : string) :
  String.length raw_org = 2%nat ->
  (forall s a b, re_last_hit raw_org s = Some (a, b) ->
     (a < b)%nat /\ (b <= String.length s)%nat) ->
  forall (fuel : nat) (name_raw : string) (extracted_positions : list string),
    (String.length name_raw < fuel)%nat ->
    exists r, org_loop fuel raw_org clean_org name_raw extracted_positions = Ok r.
Proof.
  intros Hlen Hspan. induction fuel as [| fuel IH]; intros name_raw ext Hfuel; [lia |].
  destruct (re_last_hit raw_org name_raw) as [[a b] |] eqn:Hhit.
  - rewrite (org_loop_two_letter_round fuel _ clean_org _ ext a b Hlen Hhit).
    match goal with
    | |- exists r, (if ?t then _ else _) = _ => destruct t
    end; [eexists; reflexivity |].
    apply IH. destruct (Hspan _ _ _ Hhit) as [Hab Hb].
    pose proof (length_cut name_raw a b Hab Hb). lia.
  - cbn [Person.org_loop]. rewrite Hhit. eexists; reflexivity.
Qed.

(** C6, as amended.  For a table entry whose raw spelling has two
    characters, the loop examines one match per round, the last one in
    the string as it then stands.  (1) When the string with that match
    removed splits into a name with neither first nor middle name, or
    with no last name, the loop returns at once, with the string and
    the recorded positions unchanged, earlier matches unexamined.
    (2) Otherwise the match is removed, and whatever the loop returns
    holds the entry's canonical organisation right after the positions
    recorded before.  (3) Whatever the loop returns is the string after
    some number of accepted removals, with the canonical organisation
    recorded once per removal, at a string where no match remains or
    the last match is a false positive.  (4) With hits that are
    non-empty spans inside the string, the loop does return. *)
Theorem C6_two_letter_loop (raw_org clean_org : string) :
  String.length raw_org = 2%nat ->
  (forall fuel name_raw extracted_positions a b,
     re_last_hit raw_org name_raw = Some (a, b) ->
     Spec.false_positive (HumanName (Person.cut name_raw a b)) ->
     org_loop (S fuel) raw_org clean_org name_raw extracted_positions
     = Ok (name_raw, extracted_positions))
  /\
  (forall fuel name_raw extracted_positions a b name_raw' extracted_positions',
     re_last_hit raw_org name_raw = Some (a, b) ->
     ~ Spec.false_positive (HumanName (Person.cut name_raw a b)) ->
     org_loop fuel raw_org clean_org name_raw extracted_positions
     = Ok (name_raw', extracted_positions') ->
     exists n,
       removals raw_org n (Person.cut name_raw a b) name_raw'
       /\ extracted_positions'
          = (extracted_positions ++ clean_org :: repeat clean_org n)%list)
  /\
  (forall fuel name_raw extracted_positions name_raw' extracted_positions',
     org_loop fuel raw_org clean_org name_raw extracted_positions
     = Ok (name_raw', extracted_positions') ->
     exists n,
       removals raw_org n name_raw name_raw'
       /\ extracted_positions' = (extracted_positions ++ repeat clean_org n)%list
       /\ stopped raw_org name_raw')
  /\
  ((forall s a b, re_last_hit raw_org s = Some (a, b) ->
      (a < b)%nat /\ (b <= String.length s)%nat) ->
   forall fuel name_raw extracted_positions,
     (String.length name_raw < fuel)%nat ->
     exists r, org_loop fuel raw_org clean_org name_raw extracted_positions = Ok r).
Proof.
  intros Hlen. split; [| split; [| split]].
  - intros fuel name_raw ext a b Hhit Hfp.
    rewrite (org_loop_two_letter_round fuel _ clean_org _ ext a b Hlen Hhit).
    apply false_positive_tests in Hfp. now rewrite Hfp.
  - intros fuel name_raw ext a b name_raw' ext' Hhit Hnfp H.
    destruct fuel as [| fuel]; [discriminate |].
    rewrite (org_loop_two_letter_round fuel _ clean_org _ ext a b Hlen Hhit) in H.
    match type of H with
    | (if ?t then _ else _) = _ => destruct t eqn:Et
    end; [exfalso; apply Hnfp; now apply false_positive_tests |].
    apply (org_loop_two_letter_post raw_org clean_org Hlen) in H.
    destruct H as (n & Hrem & Hext & _). exists n. split; [exact Hrem |].
    rewrite Hext, <- app_assoc. reflexivity.
  - apply org_loop_two_letter_post. exact Hlen.
  - apply org_loop_two_letter_returns. exact Hlen.
Qed.

End TwoLetterLoop.

(** C6 as amended, on the sample collaborators: ["TEMKO PM"] is left as
    it is; from ["TEMKO SL, PM"] the organisation is removed and
    returned. *)
Lemma C6_two_letter_loop_witness :
  Person.org_loop Sample.split_name Sample.whole_word_hit 1 "PM" "Philip Morris"
    "TEMKO PM" ["Covington & Burling"] = Ok ("TEMKO PM", ["Covington & Burling"])
  /\ (exists n,
        Spec.removals Sample.split_name Sample.whole_word_hit "PM" n
          "TEMKO SL, " "TEMKO SL, "
        /\ ["Covington & Burling"; "Philip Morris"]
           = (["Covington & Burling"] ++ "Philip Morris" :: repeat "Philip Morris" n)%list).
Proof.
  destruct (C6_two_letter_loop Sample.split_name Sample.whole_word_hit
              "PM" "Philip Morris" eq_refl) as (Hstop & Hrec & _ & _).
  split.
  - apply (Hstop 0%nat "TEMKO PM" ["Covington & Burling"] 6%nat 8%nat).
    + reflexivity.
    + right. reflexivity.
  - apply (Hrec 2%nat "TEMKO SL, PM" ["Covington & Burling"] 10%nat 12%nat).
    + reflexivity.
    + intros [[H _] | H]; vm_compute in H; discriminate H.
    + vm_compute. reflexivity.
Defined.

(** C6 as stated fails for a match that is not the last one.  In
    ["TEMKO-PM PM"] the spelling ["PM"] has whole-word matches at 6 and
    at 9.  Removing the one at 6 leaves ["TEMKO- PM"], which splits
    into a first and a last name, so the claim has its removal accepted
    and the organisation recorded.  The loop looks at the last match
    only: removing it leaves the single word ["TEMKO-PM"], a name
    without last name, and the loop returns with nothing recorded. *)
Lemma C6_counterexample :
  ~ (forall (HumanName : string -> Person.ParsedName)
            (raw_org clean_org name_raw : string) (extracted_positions : list string)
            (a b fuel : nat) (name_raw' : string) (extracted_positions' : list string),
       String.length raw_org = 2%nat ->
       Spec.whole_word_match raw_org name_raw a b ->
       Person.org_loop HumanName Sample.whole_word_hit fuel raw_org clean_org
         name_raw extracted_positions = Ok (name_raw', extracted_positions') ->
       (Spec.false_positive (HumanName (Person.cut name_raw a b)) ->
        name_raw' = name_raw /\ extracted_positions' = extracted_positions)
       /\ (~ Spec.false_positive (HumanName (Person.cut name_raw a b)) ->
           In clean_org extracted_positions')).
Proof.
  intros H.
  specialize (H Sample.split_name "PM" "Philip Morris" "TEMKO-PM PM" []
                6%nat 8%nat 3%nat "TEMKO-PM PM" [] eq_refl).
  destruct H as [_ H].
  - repeat split; reflexivity.
  - vm_compute. reflexivity.
  - apply H. intros [[Hf _] | Hl]; vm_compute in Hf || vm_compute in Hl; discriminate.
Qed.
